(** * web-monitor: statistics, polling, notification, validation and display

  A shallow embedding of the Go sources of the web monitor:
  - [stats.go] (URLStats, NewURLStats, Update, GetSnapshot, AverageDuration,
    AverageSize),
  - the two revisions of [monitor.go] (the one driven by a [context.Context]
    and a buffered notification channel, and the one driven by a [shutdown]
    channel and an unbuffered notification channel),
  - [display.go] (formatDuration, formatSize, the cells of a table row),
  - [main.go] (validateURLs).

  Go's [int64] and [time.Duration] (an [int64] count of nanoseconds) are
  modelled as [Z] with the two's-complement wrap-around written out. *)

From Stdlib Require Import ZArith Lia List Bool Ascii String DecimalString.
From stdpp Require Import base option list gmap strings.

Local Open Scope Z_scope.

(** ** 64-bit integers *)

Module Int64.

Definition modulus : Z := 2 ^ 64.
Definition MaxInt64 : Z := 2 ^ 63 - 1.
Definition MinInt64 : Z := - 2 ^ 63.

(** Two's-complement wrap-around of a mathematical integer into [int64]. *)
Definition wrap (z : Z) : Z := (z + 2 ^ 63) mod modulus - 2 ^ 63.

Definition in_range (z : Z) : Prop := MinInt64 <= z <= MaxInt64.

(** [x + y] on [int64]. *)
Definition add (x y : Z) : Z := wrap (x + y).

(** [x / y] on [int64], for [y <> 0]: truncated towards zero; the one
    overflowing quotient, the most negative value divided by -1, is the
    dividend itself. *)
Definition div (x y : Z) : Z :=
  if (x =? MinInt64) && (y =? -1) then x else Z.quot x y.

(** [^x] on [uint64] and on [int64]. *)
Definition not_u64 (x : Z) : Z := Z.lnot x mod modulus.
Definition not_i64 (x : Z) : Z := wrap (Z.lnot x).

End Int64.

(** ** time.Duration constants (nanoseconds) *)

Module Time.
Definition Nanosecond : Z := 1.
Definition Microsecond : Z := 1000 * Nanosecond.
Definition Millisecond : Z := 1000 * Microsecond.
Definition Second : Z := 1000 * Millisecond.

(** [d.Milliseconds()]: [int64(d) / 1e6]. *)
Definition Milliseconds (d : Z) : Z := Int64.div d 1000000.
End Time.

(** ** stats.go *)

Module Stats.

(** [type URLStats struct]. The [mu sync.RWMutex] field carries no data: it
    makes each method body below one critical section, which is how the
    methods are modelled (one function application each). *)
Record URLStats : Type := mkURLStats {
  URL : string;
  TotalRequests : Z;
  SuccessCount : Z;
  MinDuration : Z;
  MaxDuration : Z;
  TotalDuration : Z;
  MinSize : Z;
  MaxSize : Z;
  TotalSize : Z
}.

(** [func NewURLStats(url string) *URLStats]: the object the returned
    pointer refers to. [MinDuration] is [time.Duration(^uint64(0) >> 1)] and
    [MinSize] is [^int64(0) >> 1] (a signed, arithmetic shift). *)
Definition NewURLStats (url : string) : URLStats :=
  {| URL := url;
     TotalRequests := 0;
     SuccessCount := 0;
     MinDuration := Z.shiftr (Int64.not_u64 0) 1;
     MaxDuration := 0;
     TotalDuration := 0;
     MinSize := Z.shiftr (Int64.not_i64 0) 1;
     MaxSize := 0;
     TotalSize := 0 |}.

(** [func (s *URLStats) Update(duration, bodySize, success)]: the new
    contents of [*s]. *)
Definition Update (s : URLStats) (duration bodySize : Z) (success : bool)
  : URLStats :=
  let total := Int64.add (TotalRequests s) 1 in
  let succ := if success then Int64.add (SuccessCount s) 1
              else SuccessCount s in
  let minD := if (total =? 1) || (duration <? MinDuration s)
              then duration else MinDuration s in
  let maxD := if duration >? MaxDuration s
              then duration else MaxDuration s in
  let minS := if (total =? 1) || (bodySize <? MinSize s)
              then bodySize else MinSize s in
  let maxS := if bodySize >? MaxSize s
              then bodySize else MaxSize s in
  {| URL := URL s;
     TotalRequests := total;
     SuccessCount := succ;
     MinDuration := minD;
     MaxDuration := maxD;
     TotalDuration := Int64.add (TotalDuration s) duration;
     MinSize := minS;
     MaxSize := maxS;
     TotalSize := Int64.add (TotalSize s) bodySize |}.

(** [func (s *URLStats) GetSnapshot() URLStats]: a struct value built field
    by field from [*s]. *)
Definition GetSnapshot (s : URLStats) : URLStats :=
  {| URL := URL s;
     TotalRequests := TotalRequests s;
     SuccessCount := SuccessCount s;
     MinDuration := MinDuration s;
     MaxDuration := MaxDuration s;
     TotalDuration := TotalDuration s;
     MinSize := MinSize s;
     MaxSize := MaxSize s;
     TotalSize := TotalSize s |}.

Definition AverageDuration (s : URLStats) : Z :=
  if TotalRequests s =? 0 then 0
  else Int64.div (TotalDuration s) (TotalRequests s).

Definition AverageSize (s : URLStats) : Z :=
  if TotalRequests s =? 0 then 0
  else Int64.div (TotalSize s) (TotalRequests s).

(** One call of [Update]: its three arguments. *)
Definition sample : Type := Z * Z * bool.

Definition update1 (s : URLStats) (u : sample) : URLStats :=
  let '(d, b, ok) := u in Update s d b ok.

(** A sequence of [Update] calls on one object, in order. *)
Definition updates (s : URLStats) (us : list sample) : URLStats :=
  fold_left update1 us s.

(** *** The objects behind the pointers

    [NewURLStats] returns a pointer and [Update]/[GetSnapshot] have pointer
    receivers, while [GetSnapshot] returns a struct by value, which the
    caller keeps in a variable of its own. The store maps addresses to the
    structs that live there. *)

(** Addresses of [URLStats] objects. *)
Abbreviation addr := positive (only parsing).

Definition alloc (h : gmap addr URLStats) (v : URLStats)
  : gmap addr URLStats * addr :=
  let p := fresh (dom h) in (<[p := v]> h, p).

(** [p.Update(...)]: a nil or dangling receiver panics ([None]). *)
Definition call_Update (h : gmap addr URLStats) (p : addr)
           (duration bodySize : Z) (success : bool)
  : option (gmap addr URLStats) :=
  match h !! p with
  | Some s => Some (<[p := Update s duration bodySize success]> h)
  | None => None
  end.

(** [snapshot := p.GetSnapshot()]: the returned value is stored in the
    caller's fresh variable, whose address is returned. *)
Definition call_GetSnapshot (h : gmap addr URLStats) (p : addr)
  : option (gmap addr URLStats * addr) :=
  match h !! p with
  | Some s => Some (alloc h (GetSnapshot s))
  | None => None
  end.

(** Successive [p.Update(...)] calls, in order. *)
Fixpoint call_Updates (h : gmap addr URLStats) (p : addr) (us : list sample)
  : option (gmap addr URLStats) :=
  match us with
  | [] => Some h
  | (d, b, ok) :: us' =>
      match call_Update h p d b ok with
      | Some h' => call_Updates h' p us'
      | None => None
      end
  end.

(** The durations and sizes of a sample are non-negative. *)
Definition nonneg (u : sample) : Prop := 0 <= u.1.1 /\ 0 <= u.1.2.

End Stats.

(** ** Results of functions that return [(value, error)] *)

Inductive result (A E : Type) : Type :=
| Ok (a : A)
| Err (e : E).
Arguments Ok {A E} a.
Arguments Err {A E} e.

(** ** The [strings] functions the sources use, on byte strings *)

Module Strings.

Definition code (c : ascii) : N := N_of_ascii c.

(** [s[n:]] and [s[:n]]. *)
Definition from (n : nat) (s : string) : string :=
  String.substring n (String.length s - n) s.
Definition upto (n : nat) (s : string) : string := String.substring 0 n s.

(** [strings.IndexByte] and [strings.LastIndexByte]. *)
Fixpoint IndexByte (s : string) (c : ascii) : option nat :=
  match s with
  | EmptyString => None
  | String x s' =>
      if Ascii.eqb x c then Some O
      else match IndexByte s' c with
           | Some i => Some (S i)
           | None => None
           end
  end.

Fixpoint LastIndexByte (s : string) (c : ascii) : option nat :=
  match s with
  | EmptyString => None
  | String x s' =>
      match LastIndexByte s' c with
      | Some i => Some (S i)
      | None => if Ascii.eqb x c then Some O else None
      end
  end.

(** [strings.Cut(s, sep)] for a one-byte separator: the text before and after
    its first occurrence, or [s] and the empty string. *)
Definition Cut (s : string) (sep : ascii) : string * string :=
  match IndexByte s sep with
  | Some i => (upto i s, from (S i) s)
  | None => (s, EmptyString)
  end.

(** [strings.Count(s, sep)] for a one-byte separator. *)
Fixpoint Count (s : string) (sep : ascii) : nat :=
  match s with
  | EmptyString => O
  | String x s' => ((if Ascii.eqb x sep then 1 else 0) + Count s' sep)%nat
  end.

Definition HasPrefix (s prefix : string) : bool := String.prefix prefix s.

(** [strings.HasSuffix(s, suffix)] for a one-byte suffix. *)
Fixpoint HasSuffixByte (s : string) (c : ascii) : bool :=
  match s with
  | EmptyString => false
  | String x EmptyString => Ascii.eqb x c
  | String _ s' => HasSuffixByte s' c
  end.

(** [strings.Index(s, substr)]. *)
Fixpoint Index (s substr : string) : option nat :=
  if String.prefix substr s then Some O
  else match s with
       | EmptyString => None
       | String _ s' =>
           match Index s' substr with
           | Some i => Some (S i)
           | None => None
           end
       end.

Fixpoint forallb (f : ascii -> bool) (s : string) : bool :=
  match s with
  | EmptyString => true
  | String x s' => f x && forallb f s'
  end.

(** [strings.ToLower] on ASCII text. *)
Definition lower (c : ascii) : ascii :=
  if (65 <=? code c)%N && (code c <=? 90)%N
  then ascii_of_N (code c + 32) else c.

Fixpoint ToLower (s : string) : string :=
  match s with
  | EmptyString => EmptyString
  | String x s' => String (lower x) (ToLower s')
  end.

(** The UTF-8 encodings of the runes for which [unicode.IsSpace] holds:
    tab, line feed, vertical tab, form feed, carriage return, space, U+0085,
    U+00A0, U+1680, U+2000 to U+200A, U+2028, U+2029, U+202F, U+205F and
    U+3000. *)
Definition spaces : list (list N) :=
  [ [9]; [10]; [11]; [12]; [13]; [32];
    [194; 133]; [194; 160]; [225; 154; 128];
    [226; 128; 128]; [226; 128; 129]; [226; 128; 130]; [226; 128; 131];
    [226; 128; 132]; [226; 128; 133]; [226; 128; 134]; [226; 128; 135];
    [226; 128; 136]; [226; 128; 137]; [226; 128; 138];
    [226; 128; 168]; [226; 128; 169]; [226; 128; 175];
    [226; 129; 159]; [227; 128; 128] ]%N.

Fixpoint starts_with (bs pat : list N) : bool :=
  match pat, bs with
  | [], _ => true
  | p :: pat', b :: bs' => (p =? b)%N && starts_with bs' pat'
  | _ :: _, [] => false
  end.

(** The length in bytes of the white-space rune [bs] starts with ([rev]
    tells that [bs] is read from its end); 0 when there is none. *)
Definition space_width (rev : bool) (bs : list N) : nat :=
  match List.find (fun pat =>
                starts_with bs (if rev then List.rev pat else pat)) spaces with
  | Some pat => List.length pat
  | None => O
  end.

Fixpoint trim_front (rev : bool) (fuel : nat) (bs : list N) : list N :=
  match fuel with
  | O => bs
  | S fuel' =>
      match space_width rev bs with
      | O => bs
      | w => trim_front rev fuel' (drop w bs)
      end
  end.

(** [strings.TrimSpace]: leading white space is cut first, then trailing
    white space of what is left. *)
Definition TrimSpace (s : string) : string :=
  let bs := List.map code (list_ascii_of_string s) in
  let left := trim_front false (List.length bs) bs in
  let right :=
    List.rev (trim_front true (List.length left) (List.rev left)) in
  string_of_list_ascii (List.map ascii_of_N right).

End Strings.

(** ** net/url, as far as [validateURLs] observes it

    [url.Parse] as of the Go release the module asks for (1.21): whether it
    fails and, when it does not, the [Scheme] and [Host] of the result. The
    other fields of [url.URL] are not kept. *)

Module URL.
Import Strings.

Record URL : Type := mkURL { Scheme : string; Host : string }.

Inductive ParseError : Type :=
| InvalidControlCharacter
| MissingProtocolScheme
| FirstPathSegmentColon
| MissingBracket
| InvalidPort (colonPort : string)
| InvalidUserinfo
| EscapeError (s : string)
| InvalidHostError (s : string).

Inductive encoding : Type :=
| encodePath
| encodeHost
| encodeZone
| encodeUserPassword
| encodeFragment.

Definition between (lo hi : N) (c : ascii) : bool :=
  (lo <=? code c)%N && (code c <=? hi)%N.

Definition isLetter (c : ascii) : bool := between 97 122 c || between 65 90 c.
Definition isDigit (c : ascii) : bool := between 48 57 c.
Definition oneOf (set : string) (c : ascii) : bool :=
  match IndexByte set c with Some _ => true | None => false end.

Definition ishex (c : ascii) : bool :=
  isDigit c || between 97 102 c || between 65 70 c.

Definition unhex (c : ascii) : N :=
  if isDigit c then code c - 48
  else if between 97 102 c then code c - 97 + 10
  else if between 65 70 c then code c - 65 + 10
  else 0.

(** [stringContainsCTLByte]. *)
Definition stringContainsCTLByte (s : string) : bool :=
  negb (forallb (fun c => negb ((code c <? 32)%N || (code c =? 127)%N)) s).

(** [shouldEscape(c, encodeHost)]. *)
Definition shouldEscape_host (c : ascii) : bool :=
  if isLetter c || isDigit c then false
  else if oneOf "!$&'()*+,;=:[]<>" c || (code c =? 34)%N then false
  else if oneOf "-_.~" c then false
  else true.

(** [unescape(s, mode)]: [Err] for a malformed escape or, in a host, for a
    byte that may not stand there; else the text with its escapes decoded. *)
Fixpoint unescape (mode : encoding) (s : string) : result string ParseError :=
  match s with
  | EmptyString => Ok EmptyString
  | String c s1 =>
      if Ascii.eqb c "%" then
        match s1 with
        | String a (String b s2) =>
            let esc := String c (String a (String b EmptyString)) in
            if negb (ishex a && ishex b) then Err (EscapeError esc)
            else if match mode with encodeHost => true | _ => false end
                    && (unhex a <? 8)%N && negb (String.eqb esc "%25")
            then Err (EscapeError esc)
            else if match mode with encodeZone => true | _ => false end
                    && negb (String.eqb esc "%25")
                    && negb (unhex a * 16 + unhex b =? 32)%N
                    && shouldEscape_host (ascii_of_N (unhex a * 16 + unhex b))
            then Err (EscapeError esc)
            else match unescape mode s2 with
                 | Ok t => Ok (String (ascii_of_N (unhex a * 16 + unhex b)) t)
                 | Err e => Err e
                 end
        | _ => Err (EscapeError (upto 3 s))
        end
      else if match mode with encodeHost | encodeZone => true | _ => false end
              && (code c <? 128)%N && shouldEscape_host c
      then Err (InvalidHostError (String c EmptyString))
      else match unescape mode s1 with
           | Ok t => Ok (String c t)
           | Err e => Err e
           end
  end.

(** [getScheme]: the scheme and the rest; an empty scheme when the text does
    not start with one. *)
Fixpoint getScheme_from (rawURL : string) (i : nat) (s : string)
  : result (string * string) ParseError :=
  match s with
  | EmptyString => Ok (EmptyString, rawURL)
  | String c s' =>
      if isLetter c then getScheme_from rawURL (S i) s'
      else if isDigit c || oneOf "+-." c then
        match i with
        | O => Ok (EmptyString, rawURL)
        | S _ => getScheme_from rawURL (S i) s'
        end
      else if Ascii.eqb c ":" then
        match i with
        | O => Err MissingProtocolScheme
        | S _ => Ok (upto i rawURL, s')
        end
      else Ok (EmptyString, rawURL)
  end.

Definition getScheme (rawURL : string) : result (string * string) ParseError :=
  getScheme_from rawURL O rawURL.

(** [validOptionalPort]: empty, or a colon followed by digits only. *)
Definition validOptionalPort (port : string) : bool :=
  match port with
  | EmptyString => true
  | String c digits => Ascii.eqb c ":" && forallb isDigit digits
  end.

(** [validUserinfo]. *)
Definition validUserinfo (s : string) : bool :=
  forallb (fun c => isLetter c || isDigit c || oneOf "-._:~!$&'()*+,;=%@" c) s.

Definition parseHost (host : string) : result string ParseError :=
  let plain := unescape encodeHost host in
  if HasPrefix host "[" then
    match LastIndexByte host "]" with
    | None => Err MissingBracket
    | Some i =>
        if negb (validOptionalPort (from (S i) host))
        then Err (InvalidPort (from (S i) host))
        else
          match Index (upto i host) "%25" with
          | Some zone =>
              match unescape encodeHost (upto zone host) with
              | Err e => Err e
              | Ok host1 =>
                  match unescape encodeZone
                          (String.substring zone (i - zone) host) with
                  | Err e => Err e
                  | Ok host2 =>
                      match unescape encodeHost (from i host) with
                      | Err e => Err e
                      | Ok host3 => Ok (host1 +:+ host2 +:+ host3)
                      end
                  end
              end
          | None => plain
          end
    end
  else
    match LastIndexByte host ":" with
    | Some i =>
        if negb (validOptionalPort (from i host))
        then Err (InvalidPort (from i host))
        else plain
    | None => plain
    end.

(** [parseAuthority]: the host, once the user information before the last
    ["@"] is found well formed. *)
Definition parseAuthority (authority : string) : result string ParseError :=
  match LastIndexByte authority "@" with
  | None => parseHost authority
  | Some i =>
      match parseHost (from (S i) authority) with
      | Err e => Err e
      | Ok host =>
          let userinfo := upto i authority in
          if negb (validUserinfo userinfo) then Err InvalidUserinfo
          else
            match IndexByte userinfo ":" with
            | None =>
                match unescape encodeUserPassword userinfo with
                | Err e => Err e
                | Ok _ => Ok host
                end
            | Some _ =>
                match unescape encodeUserPassword (Cut userinfo ":").1 with
                | Err e => Err e
                | Ok _ =>
                    match unescape encodeUserPassword (Cut userinfo ":").2 with
                    | Err e => Err e
                    | Ok _ => Ok host
                    end
                end
            end
      end
  end.

(** [parse(rawURL, false)]. *)
Definition parse (rawURL : string) : result URL ParseError :=
  if stringContainsCTLByte rawURL then Err InvalidControlCharacter
  else if String.eqb rawURL "*" then Ok (mkURL EmptyString EmptyString)
  else
    match getScheme rawURL with
    | Err e => Err e
    | Ok (scheme, rest0) =>
        let scheme := ToLower scheme in
        let rest :=
          if HasSuffixByte rest0 "?" && (Count rest0 "?" =? 1)%nat
          then upto (String.length rest0 - 1) rest0
          else (Cut rest0 "?").1 in
        let rootless := negb (HasPrefix rest "/") in
        if rootless && negb (String.eqb scheme EmptyString)
        then Ok (mkURL scheme EmptyString)
        else if rootless && oneOf (Cut rest "/").1 ":"
        then Err FirstPathSegmentColon
        else
          let authority_path :=
            if (negb (String.eqb scheme EmptyString)
                || negb (HasPrefix rest "///"))
               && HasPrefix rest "//"
            then Some (Cut (from 2 rest) "/").1
            else None in
          let path :=
            match authority_path with
            | Some authority => from (2 + String.length authority) rest
            | None => rest
            end in
          match match authority_path with
                | Some authority => parseAuthority authority
                | None => Ok EmptyString
                end with
          | Err e => Err e
          | Ok host =>
              match unescape encodePath path with
              | Err e => Err e
              | Ok _ => Ok (mkURL scheme host)
              end
          end
    end.

(** [url.Parse]. *)
Definition Parse (rawURL : string) : result URL ParseError :=
  match parse (Cut rawURL "#").1 with
  | Err e => Err e
  | Ok url =>
      match unescape encodeFragment (Cut rawURL "#").2 with
      | Err e => Err e
      | Ok _ => Ok url
      end
  end.

End URL.

(** ** main.go *)

Module Main.
Import Strings.

(** The errors of [validateURLs], one constructor for each [fmt.Errorf]:
    "at least one URL is required", "argument %d is empty",
    "invalid URL '%s': %v", "URL '%s' must have http or https scheme" and
    "URL '%s' must have a valid host". *)
Inductive error : Type :=
| ErrNoURLs
| ErrEmptyArgument (n : nat)
| ErrInvalidURL (arg : string) (err : URL.ParseError)
| ErrScheme (arg : string)
| ErrHost (arg : string).

(** The [for i, arg := range args] loop of [validateURLs], from index [i]
    with [validURLs] collected so far. *)
Fixpoint validateURLs_range (i : nat) (args validURLs : list string)
  : result (list string) error :=
  match args with
  | [] => Ok validURLs
  | arg :: args' =>
      let arg := TrimSpace arg in
      if String.eqb arg EmptyString then Err (ErrEmptyArgument (i + 1))
      else
        match URL.Parse arg with
        | Err err => Err (ErrInvalidURL arg err)
        | Ok parsedURL =>
            if negb (String.eqb (URL.Scheme parsedURL) "http")
               && negb (String.eqb (URL.Scheme parsedURL) "https")
            then Err (ErrScheme arg)
            else if String.eqb (URL.Host parsedURL) EmptyString
            then Err (ErrHost arg)
            else validateURLs_range (S i) args' (validURLs ++ [arg])
        end
  end.

Definition validateURLs (args : list string) : result (list string) error :=
  match args with
  | [] => Err ErrNoURLs
  | _ :: _ => validateURLs_range 0 args []
  end.

(** An argument [validateURLs] lets through: not empty once trimmed, parsed
    by [url.Parse], with scheme http or https and a host. *)
Definition acceptable (arg : string) : Prop :=
  TrimSpace arg <> EmptyString /\
  exists u, URL.Parse (TrimSpace arg) = Ok u /\
            (URL.Scheme u = "http" \/ URL.Scheme u = "https") /\
            URL.Host u <> EmptyString.

(** The error the [n]-th argument is turned down with: the first of the
    four tests it fails. *)
Definition rejected_as (n : nat) (arg : string) (e : error) : Prop :=
  let t := TrimSpace arg in
  (t = EmptyString /\ e = ErrEmptyArgument n) \/
  (t <> EmptyString /\
   ((exists err, URL.Parse t = Err err /\ e = ErrInvalidURL t err) \/
    (exists u, URL.Parse t = Ok u /\
               URL.Scheme u <> "http" /\ URL.Scheme u <> "https" /\
               e = ErrScheme t) \/
    (exists u, URL.Parse t = Ok u /\
               (URL.Scheme u = "http" \/ URL.Scheme u = "https") /\
               URL.Host u = EmptyString /\ e = ErrHost t))).

End Main.

(** ** Channels of [struct{}]

    A Go channel as the runtime keeps it: the capacity given to [make], the
    number of buffered elements, and whether the (single) receiver is parked
    waiting on it. *)

Module Chan.

Record chan : Type := mkChan {
  dataqsiz : nat;
  qcount : nat;
  recvq : bool
}.

(** [make(chan struct{}, n)], and [make(chan struct{})] for [n = 0]. *)
Definition make (n : nat) : chan :=
  {| dataqsiz := n; qcount := 0; recvq := false |}.

(** [select { case c <- struct{}{}: default: }]: hand the element to a parked
    receiver, else buffer it when there is room, else take the [default]
    branch. The boolean tells whether the send happened. *)
Definition trySend (c : chan) : chan * bool :=
  if recvq c then
    ({| dataqsiz := dataqsiz c; qcount := qcount c; recvq := false |}, true)
  else if (qcount c <? dataqsiz c)%nat then
    ({| dataqsiz := dataqsiz c; qcount := S (qcount c); recvq := false |}, true)
  else (c, false).

(** The receiver reaches [case <-c] of its [select]: it takes a buffered
    element when there is one (the boolean is [true]), else it parks. *)
Definition recv (c : chan) : chan * bool :=
  match qcount c with
  | S n => ({| dataqsiz := dataqsiz c; qcount := n; recvq := false |}, true)
  | O => ({| dataqsiz := dataqsiz c; qcount := O; recvq := true |}, false)
  end.

End Chan.

(** ** What one HTTP exchange returns to [makeRequest] *)

Module HTTP.

(** [io.ReadAll(resp.Body)]: an error, or the body with its length. *)
Inductive ReadAll : Type :=
| ReadAllErr
| ReadAllOk (len : nat).

(** [httpClient.Do(req)] / [httpClient.Get(url)]: an error, or a response
    with its [StatusCode] and what reading its body gives. *)
Inductive DoResult : Type :=
| DoErr
| DoResp (StatusCode : Z) (body : ReadAll).

(** Where the cancellation of the context falls relative to one exchange. *)
Inductive Interrupt : Type :=
| NoInterrupt
| BeforeResponse
| DuringBody.

(** net/http, for a request that carries a context: the context governs the
    whole exchange (connecting, sending, reading headers and body). When it
    is cancelled before the response headers, [Do] returns an error; when it
    is cancelled while the body is read, the read fails. A request without
    such a context ([ctxBound = false]) gets what the network delivers. *)
Definition client_Do (ctxBound : bool) (i : Interrupt) (net : DoResult)
  : DoResult :=
  if ctxBound then
    match i, net with
    | NoInterrupt, r => r
    | BeforeResponse, _ => DoErr
    | DuringBody, DoResp st _ => DoResp st ReadAllErr
    | DuringBody, DoErr => DoErr
    end
  else net.

End HTTP.

(** ** monitor.go, the revision driven by a context (src/unnamed/part_000)

    This is the revision [main.go] calls ([Start(ctx, &wg)],
    [DisplayFinalTable]). The [statsMu] lock and the wait group carry no
    data. *)

Module Monitor.
Import Stats HTTP.

Record Monitor : Type := mkMonitor {
  urls : list string;
  stats : gmap string addr;
  httpClient_Timeout : Z;
  updatedData : Chan.chan
}.

Definition set_updatedData (m : Monitor) (c : Chan.chan) : Monitor :=
  {| urls := urls m; stats := stats m;
     httpClient_Timeout := httpClient_Timeout m; updatedData := c |}.

(** The loop of [NewMonitor]: [stats[url] = NewURLStats(url)] for each url. *)
Definition NewMonitor_stats (h : gmap addr URLStats) (urls : list string)
  : gmap addr URLStats * gmap string addr :=
  fold_left
    (fun (acc : gmap addr URLStats * gmap string addr) (url : string) =>
       let '(h1, p) := alloc acc.1 (NewURLStats url) in
       (h1, <[url := p]> acc.2))
    urls (h, ∅).

Definition NewMonitor (h : gmap addr URLStats) (urls : list string)
  : gmap addr URLStats * Monitor :=
  let '(h', stats) := NewMonitor_stats h urls in
  (h', {| urls := urls;
          stats := stats;
          httpClient_Timeout := 10 * Time.Second;
          updatedData := Chan.make 100 |}).

(** [updateStats]: look the pointer up, call [Update] through it (a missing
    key gives a nil pointer and a panic, [None]), then try to signal. *)
Definition updateStats (h : gmap addr URLStats) (m : Monitor) (url : string)
           (duration bodySize : Z) (success : bool)
  : option (gmap addr URLStats * Monitor) :=
  match stats m !! url with
  | None => None
  | Some stat =>
      match call_Update h stat duration bodySize success with
      | None => None
      | Some h' =>
          Some (h', set_updatedData m (Chan.trySend (updatedData m)).1)
      end
  end.

(** What the environment gives one call of [makeRequest]: either
    [http.NewRequestWithContext] fails ([time.Since(start)] read at that
    point), or the request is sent and [Do] returns ([time.Since(start)]
    read right after it). *)
Inductive Attempt : Type :=
| NewRequestErr (elapsed : Z)
| Sent (duration : Z) (r : DoResult).

(** The [bodySize] and [success] computed by [makeRequest] after [Do]. *)
Definition classify (r : DoResult) : Z * bool :=
  match r with
  | DoErr => (0, false)
  | DoResp StatusCode body =>
      match body with
      | ReadAllErr => (0, false)
      | ReadAllOk len =>
          (Z.of_nat len, (StatusCode >=? 200) && (StatusCode <? 400))
      end
  end.

(** The arguments [makeRequest] passes to [updateStats]. *)
Definition recorded (a : Attempt) : Z * Z * bool :=
  match a with
  | NewRequestErr elapsed => (elapsed, 0, false)
  | Sent duration r => (duration, (classify r).1, (classify r).2)
  end.

Definition makeRequest (h : gmap addr URLStats) (m : Monitor) (url : string)
           (a : Attempt) : option (gmap addr URLStats * Monitor) :=
  let '(duration, bodySize, success) := recorded a in
  updateStats h m url duration bodySize success.

(** The request of this revision is built with the worker's context, so the
    exchange it experiences is [client_Do true]. *)
Definition exchange (duration : Z) (i : Interrupt) (net : DoResult) : Attempt :=
  Sent duration (client_Do true i net).

(** What each turn of the [select] in [monitorURL] picks: the ticker (and
    the request then made) or [ctx.Done()]. *)
Inductive Select : Type :=
| TickerC (a : Attempt)
| CtxDone.

(** The [for { select { ... } }] of [monitorURL]. The boolean tells whether
    the worker has returned; it is [false] when the given turns are used up
    and the worker is still waiting. *)
Fixpoint monitorURL_loop (h : gmap addr URLStats) (m : Monitor) (url : string)
         (turns : list Select)
  : option (gmap addr URLStats * Monitor * bool) :=
  match turns with
  | [] => Some (h, m, false)
  | CtxDone :: _ => Some (h, m, true)
  | TickerC a :: rest =>
      match makeRequest h m url a with
      | None => None
      | Some (h', m') => monitorURL_loop h' m' url rest
      end
  end.

Definition monitorURL (h : gmap addr URLStats) (m : Monitor) (url : string)
           (first : Attempt) (turns : list Select)
  : option (gmap addr URLStats * Monitor * bool) :=
  match makeRequest h m url first with
  | None => None
  | Some (h', m') => monitorURL_loop h' m' url turns
  end.

(** The display loop reaches the [select] of [displayLoop]: it takes a
    pending notification (and redraws), or parks. *)
Definition displayLoop_select (m : Monitor) : Monitor * bool :=
  (set_updatedData m (Chan.recv (updatedData m)).1,
   (Chan.recv (updatedData m)).2).

(** The interleaving of the workers and the display loop, as far as the
    notification channel is concerned: a worker finishes a request for one
    of the urls, or the display loop comes back to its [select]. *)
Inductive Event : Type :=
| Poll (url : string) (a : Attempt)
| Display.

Definition step (hm : gmap addr URLStats * Monitor) (e : Event)
  : option (gmap addr URLStats * Monitor) :=
  match e with
  | Poll url a => makeRequest hm.1 hm.2 url a
  | Display =>
      if Chan.recvq (updatedData hm.2) then Some hm
      else Some (hm.1, (displayLoop_select hm.2).1)
  end.

Fixpoint run (hm : gmap addr URLStats * Monitor) (es : list Event)
  : option (gmap addr URLStats * Monitor) :=
  match es with
  | [] => Some hm
  | e :: es' =>
      match step hm e with
      | None => None
      | Some hm' => run hm' es'
      end
  end.

(** [*m.stats[url]]: the object a url's pointer refers to. *)
Definition stat_of (h : gmap addr URLStats) (m : Monitor) (url : string)
  : option URLStats :=
  match stats m !! url with
  | Some p => h !! p
  | None => None
  end.

(** The state of the notification channel of the context-driven revision:
    capacity 100, at most 100 buffered, and nothing buffered while the
    receiver is parked. *)
Definition chan_ok (c : Chan.chan) : Prop :=
  Chan.dataqsiz c = 100%nat /\ (Chan.qcount c <= 100)%nat /\
  (Chan.recvq c = true -> Chan.qcount c = 0%nat).

End Monitor.

(** ** monitor.go, the revision driven by a [shutdown] channel
    (src/monitor.go) *)

Module ShutdownMonitor.
Import Stats HTTP.

Record Monitor : Type := mkMonitor {
  urls : list string;
  stats : gmap string addr;
  httpClient_Timeout : Z;
  shutdown_closed : bool;
  updatedData : Chan.chan
}.

Definition set_updatedData (m : Monitor) (c : Chan.chan) : Monitor :=
  {| urls := urls m; stats := stats m;
     httpClient_Timeout := httpClient_Timeout m;
     shutdown_closed := shutdown_closed m; updatedData := c |}.

Definition NewMonitor (h : gmap addr URLStats) (urls : list string)
  : gmap addr URLStats * Monitor :=
  let '(h', stats) := Monitor.NewMonitor_stats h urls in
  (h', {| urls := urls;
          stats := stats;
          httpClient_Timeout := 10 * Time.Second;
          shutdown_closed := false;
          updatedData := Chan.make 0 |}).

Definition updateStats (h : gmap addr URLStats) (m : Monitor) (url : string)
           (duration bodySize : Z) (success : bool)
  : option (gmap addr URLStats * Monitor) :=
  match stats m !! url with
  | None => None
  | Some stat =>
      match call_Update h stat duration bodySize success with
      | None => None
      | Some h' =>
          Some (h', set_updatedData m (Chan.trySend (updatedData m)).1)
      end
  end.

(** [makeRequest]: [duration] is [time.Since(start)] read after
    [httpClient.Get(url)], whose result is [r]. *)
Definition recorded (duration : Z) (r : DoResult) : Z * Z * bool :=
  match r with
  | DoErr => (duration, 0, false)
  | DoResp StatusCode body =>
      match body with
      | ReadAllErr => (duration, 0, false)
      | ReadAllOk len =>
          (duration, Z.of_nat len,
           (StatusCode >=? 200) && (StatusCode <? 400))
      end
  end.

Definition makeRequest (h : gmap addr URLStats) (m : Monitor) (url : string)
           (duration : Z) (r : DoResult)
  : option (gmap addr URLStats * Monitor) :=
  let '(duration, bodySize, success) := recorded duration r in
  updateStats h m url duration bodySize success.

Definition stat_of (h : gmap addr URLStats) (m : Monitor) (url : string)
  : option URLStats :=
  match stats m !! url with
  | Some p => h !! p
  | None => None
  end.

End ShutdownMonitor.

(** ** display.go *)

Module Display.
Import Stats.

(** [fmt.Sprintf("%d", n)]. *)
Definition Sprintf_d (n : Z) : string := NilZero.string_of_int (Z.to_int n).

Section Format.

(** The two floating-point renderings are taken as given:
    [Sprintf_2f d] is [fmt.Sprintf("%.2f", d.Seconds())] for a duration [d],
    and [Sprintf_1f size k] is [fmt.Sprintf("%.1f", float64(size)/k)]. *)
Variable Sprintf_2f : Z -> string.
Variable Sprintf_1f : Z -> Z -> string.

Definition formatDuration (d : Z) : string :=
  if (d =? 0) || (d =? Z.shiftr (Int64.not_u64 0) 1) then "-"
  else if d >=? Time.Second then Sprintf_2f d +:+ "s"
  else Sprintf_d (Time.Milliseconds d) +:+ "ms".

Definition formatSize (size : Z) : string :=
  if (size =? 0) || (size =? Z.shiftr (Int64.not_i64 0) 1) then "-"
  else if size >=? 1024 * 1024 then Sprintf_1f size (1024 * 1024) +:+ "MB"
  else if size >=? 1024 then Sprintf_1f size 1024 +:+ "KB"
  else Sprintf_d size +:+ "B".

(** One data row of [renderTable]: the eight arguments of its [Printf], for
    a url and the snapshot taken of its statistics. *)
Definition tableRow (url : string) (snapshot : URLStats) : list string :=
  let displayURL :=
    if (28 <? String.length url)%nat
    then String.substring 0 25 url +:+ "..." else url in
  [ displayURL;
    formatDuration (MinDuration snapshot);
    formatDuration (AverageDuration snapshot);
    formatDuration (MaxDuration snapshot);
    formatSize (MinSize snapshot);
    formatSize (AverageSize snapshot);
    formatSize (MaxSize snapshot);
    Sprintf_d (SuccessCount snapshot) +:+ "/" +:+
      Sprintf_d (TotalRequests snapshot) ].

(** The data rows of [renderTable], in the order of [m.urls]; a url without
    statistics gives a nil pointer and a panic ([None]). *)
Definition renderTable (h : gmap addr URLStats) (m : Monitor.Monitor)
  : option (list (list string)) :=
  mapM (fun url =>
          match Monitor.stat_of h m url with
          | Some stat => Some (tableRow url (GetSnapshot stat))
          | None => None
          end)
       (Monitor.urls m).

End Format.

End Display.

(** ** What a sequence of samples amounts to *)

Module Samples.
Import Stats.

Definition durations (us : list sample) : list Z := List.map (fun u => u.1.1) us.
Definition sizes (us : list sample) : list Z := List.map (fun u => u.1.2) us.

(** The number of samples flagged as successful. *)
Definition successes (us : list sample) : nat :=
  List.length (List.filter (fun u => u.2) us).

Definition sum (l : list Z) : Z := List.fold_right Z.add 0 l.

End Samples.

(** ** Reading an interleaving of polls and redraws *)

Module Polls.
Import Stats.

(** The samples the polls of [url] hand to its aggregator, in order. *)
Definition samples_for (url : string) (es : list Monitor.Event) : list sample :=
  List.flat_map
    (fun e => match e with
              | Monitor.Poll u a =>
                  if String.eqb u url then [Monitor.recorded a] else []
              | Monitor.Display => []
              end) es.

(** Every poll is for one of [urls]. *)
Definition polls_within (urls : list string) (es : list Monitor.Event) : Prop :=
  Forall (fun e => match e with
                   | Monitor.Poll u _ => In u urls
                   | Monitor.Display => True
                   end) es.

(** No redraw happens. *)
Definition polls_only (es : list Monitor.Event) : Prop :=
  Forall (fun e => match e with
                   | Monitor.Poll _ _ => True
                   | Monitor.Display => False
                   end) es.

(** The pointers of a statistics map lead to live objects, each as the
    function [f] says for its url, and no two urls share an object. *)
Definition tracks (h : gmap addr URLStats) (st : gmap string addr)
           (f : string -> URLStats) : Prop :=
  (forall url p, st !! url = Some p -> h !! p = Some (f url)) /\
  (forall u1 u2 p, st !! u1 = Some p -> st !! u2 = Some p -> u1 = u2).

(** The state of the aggregator of [url] after the polls of [es]. *)
Definition after_polls (es : list Monitor.Event) (url : string) : URLStats :=
  updates (NewURLStats url) (samples_for url es).

End Polls.

(** ** The display loop and the polls of the shutdown-driven revision *)

Module ShutdownLoop.
Import Stats HTTP.

(** The display loop reaches the [select] of [displayLoop]. *)
Definition displayLoop_select (m : ShutdownMonitor.Monitor)
  : ShutdownMonitor.Monitor * bool :=
  (ShutdownMonitor.set_updatedData m
     (Chan.recv (ShutdownMonitor.updatedData m)).1,
   (Chan.recv (ShutdownMonitor.updatedData m)).2).

(** A worker finishes a request, or the display loop comes back to its
    [select]. *)
Inductive Event : Type :=
| Poll (url : string) (duration : Z) (r : DoResult)
| Display.

Definition step (hm : gmap addr URLStats * ShutdownMonitor.Monitor) (e : Event)
  : option (gmap addr URLStats * ShutdownMonitor.Monitor) :=
  match e with
  | Poll url duration r => ShutdownMonitor.makeRequest hm.1 hm.2 url duration r
  | Display =>
      if Chan.recvq (ShutdownMonitor.updatedData hm.2) then Some hm
      else Some (hm.1, (displayLoop_select hm.2).1)
  end.

Fixpoint run (hm : gmap addr URLStats * ShutdownMonitor.Monitor)
         (es : list Event)
  : option (gmap addr URLStats * ShutdownMonitor.Monitor) :=
  match es with
  | [] => Some hm
  | e :: es' =>
      match step hm e with
      | None => None
      | Some hm' => run hm' es'
      end
  end.

(** An unbuffered channel, on which nothing is pending. *)
Definition unbuffered (c : Chan.chan) : Prop :=
  Chan.dataqsiz c = 0%nat /\ Chan.qcount c = 0%nat.

End ShutdownLoop.

(* ================================================================== *)
(** * Properties *)
(* ================================================================== *)

(** ** 64-bit arithmetic *)

Lemma wrap_small z : Int64.in_range z -> Int64.wrap z = z.
Proof.
  unfold Int64.in_range, Int64.wrap, Int64.MinInt64, Int64.MaxInt64,
    Int64.modulus.
  intros H. rewrite Z.mod_small; lia.
Qed.

Lemma wrap_in_range z : Int64.in_range (Int64.wrap z).
Proof.
  unfold Int64.in_range, Int64.wrap, Int64.MinInt64, Int64.MaxInt64,
    Int64.modulus.
  pose proof (Z.mod_pos_bound (z + 2 ^ 63) (2 ^ 64) ltac:(lia)). lia.
Qed.

Lemma add_small x y :
  0 <= x -> 0 <= y -> x + y < 2 ^ 63 -> Int64.add x y = x + y.
Proof.
  intros. unfold Int64.add. apply wrap_small.
  unfold Int64.in_range, Int64.MinInt64, Int64.MaxInt64. lia.
Qed.

Lemma div_pos x y : 0 < y -> Int64.div x y = Z.quot x y.
Proof.
  intros Hy. unfold Int64.div.
  destruct (Z.eqb_spec y (-1)); [lia|]. now rewrite andb_false_r.
Qed.

(** Case analysis on the integer comparisons of a goal. *)
Ltac z_cases :=
  repeat match goal with
         | |- context [?x >? ?y] => destruct (Z.gtb_spec x y)
         | |- context [?x <? ?y] => destruct (Z.ltb_spec x y)
         end.

(** ** The statistics of one target *)

Section StatsFacts.
Import Stats.

Lemma updates_snoc s us u : updates s (us ++ [u]) = update1 (updates s us) u.
Proof. unfold updates. now rewrite fold_left_app. Qed.

(** Below 2^63 calls the two counters do not wrap: the request counter is the
    number of calls and the success counter lies between 0 and it. *)
Lemma counters_exact url us :
  Z.of_nat (length us) < 2 ^ 63 ->
  let s := updates (NewURLStats url) us in
  TotalRequests s = Z.of_nat (length us) /\
  0 <= SuccessCount s <= TotalRequests s.
Proof.
  induction us as [|u us IH] using rev_ind; intros Hlen s.
  - subst s. cbn. lia.
  - subst s. rewrite updates_snoc. rewrite length_app in *. cbn [length] in *.
    destruct IH as [Hn Hs]; [lia|].
    destruct u as [[d b] ok]. cbn [update1 Update TotalRequests SuccessCount].
    rewrite Hn in *.
    rewrite (add_small (Z.of_nat (length us)) 1) by lia.
    split; [lia|].
    destruct ok; [rewrite add_small|]; lia.
Qed.

(** C1: on a fresh aggregator the four updates (100ms, 1000 B, true),
    (200ms, 2000 B, true), (300ms, 1500 B, false), (150ms, 500 B, true), in
    that order, give count 4, success count 3, minimum duration 100ms, maximum
    duration 300ms, average duration 187500 microseconds, minimum size 500,
    maximum size 2000 and average size 1250. *)
Theorem four_updates_example (url : string) :
  let s := updates (NewURLStats url)
             [ (100 * Time.Millisecond, 1000, true);
               (200 * Time.Millisecond, 2000, true);
               (300 * Time.Millisecond, 1500, false);
               (150 * Time.Millisecond, 500, true) ] in
  TotalRequests s = 4 /\ SuccessCount s = 3 /\
  MinDuration s = 100 * Time.Millisecond /\
  MaxDuration s = 300 * Time.Millisecond /\
  AverageDuration s = 187500 * Time.Microsecond /\
  MinSize s = 500 /\ MaxSize s = 2000 /\ AverageSize s = 1250.
Proof. cbv zeta. repeat split; vm_compute; reflexivity. Qed.

(** C4: in every aggregator state with a positive request count the average
    duration is the total duration divided by the count and the average size
    is the total size divided by the count (Go's integer division, truncated
    towards zero); with a count of zero both averages are 0. *)
Theorem averages_are_quotients (s : URLStats) :
  (0 < TotalRequests s ->
     AverageDuration s = Z.quot (TotalDuration s) (TotalRequests s) /\
     AverageSize s = Z.quot (TotalSize s) (TotalRequests s)) /\
  (TotalRequests s = 0 -> AverageDuration s = 0 /\ AverageSize s = 0).
Proof.
  unfold AverageDuration, AverageSize. split.
  - intros Hpos. destruct (Z.eqb_spec (TotalRequests s) 0); [lia|].
    now rewrite !div_pos.
  - intros ->. now rewrite Z.eqb_refl.
Qed.

Lemma averages_are_quotients_witness :
  AverageDuration (Update (Update (NewURLStats "t") 3 7 true) 4 8 false) = 3 /\
  AverageSize (Update (Update (NewURLStats "t") 3 7 true) 4 8 false) = 7 /\
  AverageDuration (NewURLStats "t") = 0.
Proof.
  pose proof (averages_are_quotients
                (Update (Update (NewURLStats "t") 3 7 true) 4 8 false)) as [H _].
  pose proof (averages_are_quotients (NewURLStats "t")) as [_ H0].
  destruct (H ltac:(vm_compute; reflexivity)) as [Hd Hs].
  destruct (H0 ltac:(reflexivity)) as [Hd0 _].
  rewrite Hd, Hs, Hd0. vm_compute. repeat split; reflexivity.
Defined.

(** C5: for every sequence of updates applied to one aggregator from its
    initial state, the success count is at most the request count after every
    update (every prefix of the sequence). The counters are 64-bit, so the
    sequence is taken shorter than 2^63 calls. *)
Theorem success_le_total (url : string) (us : list sample) (n : nat) :
  Z.of_nat (length us) < 2 ^ 63 ->
  SuccessCount (updates (NewURLStats url) (take n us))
    <= TotalRequests (updates (NewURLStats url) (take n us)).
Proof.
  intros Hlen.
  pose proof (counters_exact url (take n us)) as H.
  rewrite length_take in H. cbv zeta in H.
  destruct H as [_ H]; lia.
Qed.

Lemma success_le_total_witness :
  SuccessCount (updates (NewURLStats "t")
                  (take 2 [(5, 10, true); (7, 0, false); (1, 3, true)]))
    <= TotalRequests (updates (NewURLStats "t")
                  (take 2 [(5, 10, true); (7, 0, false); (1, 3, true)])).
Proof.
  apply (success_le_total "t" [(5, 10, true); (7, 0, false); (1, 3, true)] 2).
  vm_compute. reflexivity.
Defined.

(** C6: for every sequence of updates with non-negative durations and sizes,
    in the state after any update (the first included) the minimum duration
    is at most the maximum duration and the minimum size at most the maximum
    size; and every update after the first leaves each minimum no larger and
    each maximum no smaller than before. The request counter is 64-bit, so
    the sequence is taken shorter than 2^63 calls. *)
Theorem min_le_max_preserved (url : string) (us : list sample) (u : sample) :
  Forall nonneg (us ++ [u]) ->
  Z.of_nat (length (us ++ [u])) < 2 ^ 63 ->
  let s := updates (NewURLStats url) us in
  let s' := updates (NewURLStats url) (us ++ [u]) in
  MinDuration s' <= MaxDuration s' /\ MinSize s' <= MaxSize s' /\
  (us <> [] ->
     MinDuration s' <= MinDuration s /\ MaxDuration s <= MaxDuration s' /\
     MinSize s' <= MinSize s /\ MaxSize s <= MaxSize s').
Proof.
  revert u. induction us as [|v us IH] using rev_ind; intros u Hnn Hlen s s'.
  - subst s s'. destruct u as [[d b] ok]. cbn.
    apply Forall_inv in Hnn. destruct Hnn as [Hd Hb]. cbn in Hd, Hb.
    change (Int64.add 0 1 =? 1) with true. cbn [orb].
    split; [|split]; [| |intros Hne; congruence]; z_cases; lia.
  - assert (Hpre : Forall nonneg (us ++ [v])).
    { apply Forall_app in Hnn. tauto. }
    rewrite !length_app in Hlen. cbn [length] in Hlen.
    specialize (IH v Hpre). rewrite length_app in IH. cbn [length] in IH.
    destruct IH as (IHd & IHs & _); [lia|].
    pose proof (counters_exact url (us ++ [v])) as Hc.
    rewrite length_app in Hc. cbn [length] in Hc. cbv zeta in Hc.
    destruct Hc as [Hn _]; [lia|].
    subst s'. rewrite updates_snoc. fold s.
    fold s in IHd, IHs, Hn.
    destruct u as [[d b] ok].
    cbn [update1 Update MinDuration MaxDuration MinSize MaxSize].
    rewrite Hn. rewrite add_small by lia.
    destruct (Z.eqb_spec (Z.of_nat (length us + 1) + 1) 1); [lia|].
    cbn [orb].
    z_cases; repeat split; lia.
Qed.

Lemma min_le_max_preserved_witness :
  let s := updates (NewURLStats "t") [(5, 10, true); (7, 0, false)] in
  let s' := updates (NewURLStats "t")
              ([(5, 10, true); (7, 0, false)] ++ [(1, 30, true)]) in
  MinDuration s' <= MaxDuration s' /\ MinSize s' <= MaxSize s' /\
  MinDuration s' <= MinDuration s /\ MaxDuration s <= MaxDuration s' /\
  MinSize s' <= MinSize s /\ MaxSize s <= MaxSize s'.
Proof.
  pose proof (min_le_max_preserved "t" [(5, 10, true); (7, 0, false)]
                (1, 30, true)) as H.
  destruct H as (H1 & H2 & H3).
  - repeat constructor; cbn; lia.
  - vm_compute. reflexivity.
  - destruct H3 as (H3 & H4 & H5 & H6); [discriminate|].
    cbv zeta. repeat split; assumption.
Defined.

Lemma call_Updates_spec (h : gmap addr URLStats) p s us :
  h !! p = Some s ->
  exists h', call_Updates h p us = Some h' /\
             h' !! p = Some (updates s us) /\
             forall q, q <> p -> h' !! q = h !! q.
Proof.
  revert h s. induction us as [|[[d b] ok] us IH]; intros h s Hp.
  - exists h. cbn. auto.
  - cbn [call_Updates]. unfold call_Update. rewrite Hp.
    destruct (IH (<[p := Update s d b ok]> h) (Update s d b ok))
      as (h' & Hrun & Hlive & Hframe).
    { apply lookup_insert_eq. }
    exists h'. split; [exact Hrun|]. split; [exact Hlive|].
    intros q Hq. rewrite (Hframe q Hq). now apply lookup_insert_ne.
Qed.

Lemma alloc_fresh (h : gmap addr URLStats) v :
  h !! (alloc h v).2 = None /\ (alloc h v).1 !! (alloc h v).2 = Some v /\
  forall p, is_Some (h !! p) -> (alloc h v).1 !! p = h !! p.
Proof.
  unfold alloc. cbn.
  assert (Hf : h !! fresh (dom h) = None).
  { apply not_elem_of_dom. apply is_fresh. }
  split; [exact Hf|]. split; [apply lookup_insert_eq|].
  intros p [x Hx]. apply lookup_insert_ne. intros Heq. subst p. congruence.
Qed.

(** C7: a snapshot is a value of its own. Once [GetSnapshot] has returned,
    any further updates of the live aggregator leave the snapshot as it was
    taken, field for field, while the live aggregator moves on. *)
Theorem snapshot_unaffected_by_later_updates
        (h : gmap addr URLStats) (p : addr) (s : URLStats) (us : list sample) :
  h !! p = Some s ->
  exists h1 q h2,
    call_GetSnapshot h p = Some (h1, q) /\
    call_Updates h1 p us = Some h2 /\
    q <> p /\
    h1 !! q = Some (GetSnapshot s) /\
    h2 !! q = Some (GetSnapshot s) /\
    GetSnapshot s = s /\
    h2 !! p = Some (updates s us).
Proof.
  intros Hp. unfold call_GetSnapshot. rewrite Hp.
  destruct (alloc_fresh h (GetSnapshot s)) as (Hnew & Hq & Hold).
  destruct (alloc h (GetSnapshot s)) as [h1 q] eqn:Ha. cbn [fst snd] in *.
  assert (Hqp : q <> p) by (intros ->; congruence).
  assert (Hp1 : h1 !! p = Some s) by (rewrite Hold; eauto).
  destruct (call_Updates_spec h1 p s us Hp1) as (h2 & Hrun & Hlive & Hframe).
  exists h1, q, h2. repeat split; try assumption.
  - rewrite (Hframe q Hqp). exact Hq.
  - now destruct s.
Qed.

Lemma snapshot_unaffected_by_later_updates_witness :
  exists h1 q h2,
    call_GetSnapshot
      {[ 1%positive := Update (NewURLStats "t") (100 * Time.Millisecond) 1000 true ]}
      1%positive = Some (h1, q) /\
    call_Updates h1 1%positive [(200 * Time.Millisecond, 2000, false)]
      = Some h2 /\
    TotalRequests <$> h2 !! q = Some 1 /\
    TotalRequests <$> h2 !! 1%positive = Some 2.
Proof.
  destruct (snapshot_unaffected_by_later_updates
              {[ 1%positive :=
                   Update (NewURLStats "t") (100 * Time.Millisecond) 1000 true ]}
              1%positive
              (Update (NewURLStats "t") (100 * Time.Millisecond) 1000 true)
              [(200 * Time.Millisecond, 2000, false)])
    as (h1 & q & h2 & Hs & Hu & _ & _ & Hq & _ & Hp).
  - apply lookup_singleton_eq.
  - exists h1, q, h2. rewrite Hq, Hp. repeat split; assumption.
Defined.

End StatsFacts.

(** ** Polling and the notification channel *)

Section MonitorFacts.
Import Stats HTTP.

(** [updateStats] applies exactly one [Update] to the object of its url and
    touches the channel by one [trySend]. *)
Lemma updateStats_spec (h : gmap addr URLStats) (m : Monitor.Monitor)
      url p s d b ok :
  Monitor.stats m !! url = Some p -> h !! p = Some s ->
  Monitor.updateStats h m url d b ok =
    Some (<[p := Update s d b ok]> h,
          Monitor.set_updatedData m
            (Chan.trySend (Monitor.updatedData m)).1).
Proof.
  intros Hp Hs. unfold Monitor.updateStats, call_Update. now rewrite Hp, Hs.
Qed.

Lemma shutdown_updateStats_spec (h : gmap addr URLStats)
      (m : ShutdownMonitor.Monitor) url p s d b ok :
  ShutdownMonitor.stats m !! url = Some p -> h !! p = Some s ->
  ShutdownMonitor.updateStats h m url d b ok =
    Some (<[p := Update s d b ok]> h,
          ShutdownMonitor.set_updatedData m
            (Chan.trySend (ShutdownMonitor.updatedData m)).1).
Proof.
  intros Hp Hs. unfold ShutdownMonitor.updateStats, call_Update.
  now rewrite Hp, Hs.
Qed.

Lemma classify_success (r : DoResult) :
  (Monitor.classify r).2 = true <->
  exists st len, r = DoResp st (ReadAllOk len) /\ 200 <= st < 400.
Proof.
  destruct r as [|st [|len]]; cbn.
  - split; [discriminate|]. intros (? & ? & ? & _). discriminate.
  - split; [discriminate|]. intros (? & ? & ? & _). discriminate.
  - rewrite andb_true_iff, Z.geb_le, Z.ltb_lt. split.
    + intros [? ?]. exists st, len. split; [reflexivity|lia].
    + intros (st' & len' & Heq & ?). injection Heq as -> ->. lia.
Qed.

(** C2: for every poll, in both revisions of [makeRequest], the outcome
    handed to the aggregator of the target has success = true exactly when a
    response was obtained, its body was read without error and its status
    code lies in [200, 400); statuses 299 and 300 count as success and 400 as
    failure; and after a transport error, a body-read error or a request that
    could not be built the recorded size is 0. *)
Theorem poll_success_iff_status_in_range
        (h : gmap addr URLStats) (url : string) (p : addr) (s : URLStats) :
  h !! p = Some s ->
  (forall (m : Monitor.Monitor) (a : Monitor.Attempt),
     Monitor.stats m !! url = Some p ->
     exists h' m' d size ok,
       Monitor.makeRequest h m url a = Some (h', m') /\
       h' !! p = Some (Update s d size ok) /\
       (ok = true <->
        exists d' st len,
          a = Monitor.Sent d' (DoResp st (ReadAllOk len)) /\ 200 <= st < 400) /\
       ((forall d' st len, a <> Monitor.Sent d' (DoResp st (ReadAllOk len))) ->
        size = 0)) /\
  (forall (m : ShutdownMonitor.Monitor) (d : Z) (r : DoResult),
     ShutdownMonitor.stats m !! url = Some p ->
     exists h' m' size ok,
       ShutdownMonitor.makeRequest h m url d r = Some (h', m') /\
       h' !! p = Some (Update s d size ok) /\
       (ok = true <->
        exists st len, r = DoResp st (ReadAllOk len) /\ 200 <= st < 400) /\
       ((forall st len, r <> DoResp st (ReadAllOk len)) -> size = 0)) /\
  (forall d len,
     (Monitor.recorded (Monitor.Sent d (DoResp 299 (ReadAllOk len)))).2 = true /\
     (Monitor.recorded (Monitor.Sent d (DoResp 300 (ReadAllOk len)))).2 = true /\
     (Monitor.recorded (Monitor.Sent d (DoResp 400 (ReadAllOk len)))).2 = false /\
     (ShutdownMonitor.recorded d (DoResp 299 (ReadAllOk len))).2 = true /\
     (ShutdownMonitor.recorded d (DoResp 300 (ReadAllOk len))).2 = true /\
     (ShutdownMonitor.recorded d (DoResp 400 (ReadAllOk len))).2 = false).
Proof.
  intros Hs. split; [|split].
  - intros m a Hp. unfold Monitor.makeRequest.
    destruct (Monitor.recorded a) as [[d size] ok] eqn:Hrec.
    rewrite (updateStats_spec h m url p s d size ok Hp Hs).
    eexists _, _, d, size, ok. split; [reflexivity|].
    split; [apply lookup_insert_eq|].
    destruct a as [el|d' r]; cbn in Hrec.
    + injection Hrec as <- <- <-. split.
      * split; [discriminate|]. intros (? & ? & ? & ? & _). discriminate.
      * reflexivity.
    + injection Hrec as <- <- <-. split.
      * rewrite classify_success. split.
        -- intros (st & len & -> & ?). now exists d', st, len.
        -- intros (d'' & st & len & Heq & ?). injection Heq as _ ->.
           now exists st, len.
      * intros Hno. destruct r as [|st [|len]]; cbn; try reflexivity.
        now destruct (Hno d' st len).
  - intros m d r Hp. unfold ShutdownMonitor.makeRequest.
    destruct (ShutdownMonitor.recorded d r) as [[d0 size] ok] eqn:Hrec.
    rewrite (shutdown_updateStats_spec h m url p s d0 size ok Hp Hs).
    assert (d0 = d /\ size = (Monitor.classify r).1 /\
            ok = (Monitor.classify r).2) as (-> & -> & ->).
    { destruct r as [|st [|len]]; cbn in *;
        injection Hrec as <- <- <-; auto. }
    eexists _, _, _, _. split; [reflexivity|].
    split; [apply lookup_insert_eq|]. split.
    + apply classify_success.
    + intros Hno. destruct r as [|st [|len]]; cbn; try reflexivity.
      now destruct (Hno st len).
  - intros d len. cbn. repeat split.
Qed.

Lemma poll_success_iff_status_in_range_witness :
  (exists h' m',
     Monitor.makeRequest
       {[ 1%positive := NewURLStats "t" ]}
       (Monitor.mkMonitor ["t"] {[ "t" := 1%positive ]} 10 (Chan.make 100))
       "t" (Monitor.Sent 5 (DoResp 204 (ReadAllOk 0))) = Some (h', m') /\
     SuccessCount <$> h' !! 1%positive = Some 1) /\
  (Monitor.recorded (Monitor.Sent 5 (DoResp 400 (ReadAllOk 9)))).2 = false.
Proof.
  destruct (poll_success_iff_status_in_range
              {[ 1%positive := NewURLStats "t" ]} "t" 1%positive
              (NewURLStats "t"))
    as (Hnew & _ & Hex); [vm_compute; reflexivity|].
  split; [|destruct (Hex 5 9%nat) as (_ & _ & H400 & _); exact H400].
  destruct (Hnew (Monitor.mkMonitor ["t"] {[ "t" := 1%positive ]} 10
                    (Chan.make 100))
                 (Monitor.Sent 5 (DoResp 204 (ReadAllOk 0))))
    as (h' & m' & d & size & ok & Hrun & Hp & Hok & _);
    [vm_compute; reflexivity|].
  exists h', m'. split; [exact Hrun|].
  rewrite Hp. cbn.
  assert (ok = true) as ->.
  { apply Hok. exists 5, 204, 0%nat. split; [reflexivity|lia]. }
  vm_compute. reflexivity.
Defined.


Lemma trySend_ok c : Monitor.chan_ok c -> Monitor.chan_ok (Chan.trySend c).1.
Proof.
  unfold Monitor.chan_ok, Chan.trySend. intros (Hcap & Hq & Hpark).
  destruct (Chan.recvq c) eqn:Hr.
  - cbn. repeat split; try lia; try congruence; auto.
  - destruct (Nat.ltb_spec (Chan.qcount c) (Chan.dataqsiz c)); cbn.
    + repeat split; try lia; try congruence.
    + repeat split; try lia; try congruence.
Qed.

Lemma recv_ok c : Monitor.chan_ok c -> Monitor.chan_ok (Chan.recv c).1.
Proof.
  unfold Monitor.chan_ok, Chan.recv. intros (Hcap & Hq & Hpark).
  destruct (Chan.qcount c); cbn; repeat split; try lia; try congruence.
Qed.

Lemma makeRequest_channel h m url a h' m' :
  Monitor.makeRequest h m url a = Some (h', m') ->
  Monitor.updatedData m' = (Chan.trySend (Monitor.updatedData m)).1.
Proof.
  unfold Monitor.makeRequest, Monitor.updateStats.
  destruct (Monitor.recorded a) as [[d b] ok].
  destruct (Monitor.stats m !! url) as [p|]; [|discriminate].
  destruct (call_Update h p d b ok); [|discriminate].
  intros H. injection H as _ <-. reflexivity.
Qed.

Lemma step_ok hm e hm' :
  Monitor.step hm e = Some hm' ->
  Monitor.chan_ok (Monitor.updatedData hm.2) -> Monitor.chan_ok (Monitor.updatedData hm'.2).
Proof.
  destruct hm as [h m], hm' as [h' m'], e as [url a|]; cbn.
  - intros H Hok. rewrite (makeRequest_channel _ _ _ _ _ _ H).
    now apply trySend_ok.
  - destruct (Chan.recvq (Monitor.updatedData m)).
    + intros H. injection H as _ <-. auto.
    + intros H. injection H as _ <-. cbn. apply recv_ok.
Qed.

Lemma run_ok es : forall hm hm',
  Monitor.run hm es = Some hm' ->
  Monitor.chan_ok (Monitor.updatedData hm.2) -> Monitor.chan_ok (Monitor.updatedData hm'.2).
Proof.
  induction es as [|e es IH]; intros hm hm'; cbn.
  - intros H. injection H as <-. auto.
  - destruct (Monitor.step hm e) as [hm1|] eqn:Hstep; [|discriminate].
    intros Hrun Hok. apply (IH hm1 hm' Hrun). eapply step_ok; eauto.
Qed.

Lemma NewMonitor_channel h urls :
  Monitor.updatedData (Monitor.NewMonitor h urls).2 = Chan.make 100.
Proof.
  unfold Monitor.NewMonitor.
  now destruct (Monitor.NewMonitor_stats h urls).
Qed.

(** C3, as stated, fails: after the constructor and two polls with no redraw
    in between, two notifications are pending in a buffer of 100 slots. *)
Lemma notification_channel_not_single_slot :
  ~ (forall (urls : list string) (es : list Monitor.Event) h' m',
       Monitor.run (Monitor.NewMonitor ∅ urls) es = Some (h', m') ->
       Chan.dataqsiz (Monitor.updatedData m') = 1%nat /\
       (Chan.qcount (Monitor.updatedData m') <= 1)%nat).
Proof.
  intros H.
  destruct (Monitor.run (Monitor.NewMonitor ∅ ["https://example.com"])
              [Monitor.Poll "https://example.com"
                 (Monitor.Sent 5 (DoResp 200 (ReadAllOk 1000)));
               Monitor.Poll "https://example.com"
                 (Monitor.Sent 6 (DoResp 200 (ReadAllOk 1000)))])
    as [[h' m']|] eqn:Hrun; [|vm_compute in Hrun; discriminate].
  destruct (H _ _ _ _ Hrun) as [_ Hq].
  vm_compute in Hrun. injection Hrun as _ <-. cbn in Hq. lia.
Qed.

(** C3, amended: the change-notification channel made by the constructor is
    a buffer of 100 slots; through any interleaving of polls and redraws at
    most 100 notifications are pending; and a poll that finds the buffer full
    leaves the channel as it was (the send is dropped, not blocked). *)
Theorem notifications_bounded_by_capacity
        (h : gmap addr URLStats) (urls : list string)
        (es : list Monitor.Event) h' m' :
  Monitor.run (Monitor.NewMonitor h urls) es = Some (h', m') ->
  Chan.dataqsiz (Monitor.updatedData m') = 100%nat /\
  (Chan.qcount (Monitor.updatedData m') <= 100)%nat /\
  (Chan.qcount (Monitor.updatedData m') = 100%nat ->
   forall url a h'' m'',
     Monitor.makeRequest h' m' url a = Some (h'', m'') ->
     Monitor.updatedData m'' = Monitor.updatedData m').
Proof.
  intros Hrun.
  assert (Hok : Monitor.chan_ok (Monitor.updatedData m')).
  { apply (run_ok es _ (h', m') Hrun).
    rewrite NewMonitor_channel. unfold Monitor.chan_ok, Chan.make. cbn.
    repeat split; try lia; discriminate. }
  destruct Hok as (Hcap & Hq & Hpark).
  split; [exact Hcap|]. split; [exact Hq|].
  intros Hfull url a h'' m'' Hreq.
  rewrite (makeRequest_channel _ _ _ _ _ _ Hreq).
  unfold Chan.trySend.
  destruct (Chan.recvq (Monitor.updatedData m')) eqn:Hr.
  - specialize (Hpark eq_refl). lia.
  - rewrite Hcap, Hfull. reflexivity.
Qed.

Lemma notifications_bounded_by_capacity_witness :
  match Monitor.run (Monitor.NewMonitor ∅ ["https://example.com"])
          [Monitor.Poll "https://example.com"
             (Monitor.Sent 5 (DoResp 200 (ReadAllOk 1000)));
           Monitor.Display;
           Monitor.Poll "https://example.com" (Monitor.Sent 6 DoErr)] with
  | Some (h', m') =>
      Chan.dataqsiz (Monitor.updatedData m') = 100%nat /\
      (Chan.qcount (Monitor.updatedData m') <= 100)%nat
  | None => False
  end.
Proof.
  destruct (Monitor.run (Monitor.NewMonitor ∅ ["https://example.com"])
              [Monitor.Poll "https://example.com"
                 (Monitor.Sent 5 (DoResp 200 (ReadAllOk 1000)));
               Monitor.Display;
               Monitor.Poll "https://example.com" (Monitor.Sent 6 DoErr)])
    as [[h' m']|] eqn:Hrun.
  - destruct (notifications_bounded_by_capacity _ _ _ _ _ Hrun)
      as (Hc & Hq & _).
    split; [exact Hc|exact Hq].
  - vm_compute in Hrun. discriminate.
Defined.

(** C9 at its failing input: one worker of the context-driven revision whose
    first GET would be answered 200 with 1000 bytes, the context being
    cancelled while the request is in flight. The request is cut short, the
    worker records one failed poll of size 0 and returns; the revision
    without a request context records the answer the network delivers. *)
Theorem cancelled_inflight_request_is_cut_short :
  let u := "https://example.com" in
  let net := DoResp 200 (ReadAllOk 1000) in
  (forall d net', Monitor.recorded (Monitor.exchange d BeforeResponse net')
                  = (d, 0, false)) /\
  (let '(h, m) := Monitor.NewMonitor ∅ [u] in
   match Monitor.monitorURL h m u (Monitor.exchange 7 BeforeResponse net)
           [Monitor.CtxDone] with
   | Some (h', m', returned) =>
       returned = true /\
       (fun s => (TotalRequests s, SuccessCount s, TotalSize s))
         <$> Monitor.stat_of h' m' u = Some (1, 0, 0)
   | None => False
   end) /\
  (let '(h, m) := ShutdownMonitor.NewMonitor ∅ [u] in
   match ShutdownMonitor.makeRequest h m u 7
           (client_Do false BeforeResponse net) with
   | Some (h', m') =>
       (fun s => (TotalRequests s, SuccessCount s, TotalSize s))
         <$> ShutdownMonitor.stat_of h' m' u = Some (1, 1, 1000)
   | None => False
   end).
Proof.
  cbv zeta. split; [|split].
  - intros d net'. reflexivity.
  - vm_compute. split; reflexivity.
  - vm_compute. reflexivity.
Qed.

End MonitorFacts.

(** ** The table *)

Section DisplayFacts.
Import Stats HTTP Display.

(** C10: [formatDuration] gives the placeholder "-" for 0 as it does for the
    unset minimum duration, and [formatSize] gives "-" for 0 as it does for
    the unset minimum size; so a minimum size of 0 recorded by a failed poll
    whose body could not be read shows in the table exactly as the minimum
    size of a target with no samples. *)
Theorem zero_renders_as_unset
        (Sprintf_2f : Z -> string) (Sprintf_1f : Z -> Z -> string)
        (url : string) (d : Z) :
  formatDuration Sprintf_2f 0 = "-" /\
  formatDuration Sprintf_2f (MinDuration (NewURLStats url)) = "-" /\
  formatSize Sprintf_1f 0 = "-" /\
  formatSize Sprintf_1f (MinSize (NewURLStats url)) = "-" /\
  (let failed := Monitor.recorded (Monitor.Sent d DoErr) in
   let s0 := NewURLStats url in
   let s1 := Update s0 failed.1.1 failed.1.2 failed.2 in
   MinSize s1 = 0 /\
   tableRow Sprintf_2f Sprintf_1f url (GetSnapshot s1) !! 4%nat = Some "-" /\
   tableRow Sprintf_2f Sprintf_1f url (GetSnapshot s0) !! 4%nat = Some "-") /\
  (let polled := "https://a.example" in
   let idle := "https://b.example" in
   let '(h, m) := Monitor.NewMonitor ∅ [polled; idle] in
   match Monitor.makeRequest h m polled (Monitor.Sent 7 DoErr) with
   | Some (h', m') =>
       match renderTable Sprintf_2f Sprintf_1f h' m' with
       | Some [row_polled; row_idle] =>
           row_polled !! 4%nat = Some "-" /\ row_idle !! 4%nat = Some "-"
       | _ => False
       end
   | None => False
   end).
Proof.
  assert (Hzero : formatSize Sprintf_1f 0 = "-") by reflexivity.
  assert (Hunset : formatSize Sprintf_1f (MinSize (NewURLStats url)) = "-")
    by reflexivity.
  split; [reflexivity|]. split; [reflexivity|].
  split; [exact Hzero|]. split; [exact Hunset|]. split.
  - cbv zeta. split; [reflexivity|].
    unfold tableRow. cbn [lookup list_lookup]. split.
    + f_equal.
    + f_equal.
  - vm_compute. split; reflexivity.
Qed.

End DisplayFacts.

(** ** Validation of the command line *)

Section ValidationFacts.
Import Strings Main.

Lemma validateURLs_range_spec (args : list string) :
  forall (i : nat) (validURLs : list string),
    match validateURLs_range i args validURLs with
    | Ok urls =>
        Forall acceptable args /\ urls = validURLs ++ List.map TrimSpace args
    | Err e =>
        exists pre a post,
          args = pre ++ a :: post /\ Forall acceptable pre /\
          rejected_as (i + length pre + 1) a e
    end.
Proof.
  induction args as [|arg args IH]; intros i acc.
  - cbn. split; [constructor|]. now rewrite app_nil_r.
  - cbn [validateURLs_range].
    assert (Hfirst : forall e, rejected_as (i + 1) arg e ->
              exists pre a post,
                arg :: args = pre ++ a :: post /\ Forall acceptable pre /\
                rejected_as (i + length pre + 1) a e).
    { intros e He. exists [], arg, args. cbn [length app].
      rewrite Nat.add_0_r. repeat split; [constructor|exact He]. }
    destruct (String.eqb_spec (TrimSpace arg) EmptyString) as [Hempty|Hne].
    { apply Hfirst. left. auto. }
    destruct (URL.Parse (TrimSpace arg)) as [u|err] eqn:Hparse.
    2:{ apply Hfirst. right. split; [exact Hne|]. left. eauto. }
    destruct (negb (String.eqb (URL.Scheme u) "http")
              && negb (String.eqb (URL.Scheme u) "https")) eqn:Hscheme.
    { apply andb_true_iff in Hscheme. destruct Hscheme as [H1 H2].
      apply negb_true_iff, String.eqb_neq in H1.
      apply negb_true_iff, String.eqb_neq in H2.
      apply Hfirst. right. split; [exact Hne|]. right. left.
      exists u. auto. }
    assert (Hgood : URL.Scheme u = "http" \/ URL.Scheme u = "https").
    { apply andb_false_iff in Hscheme.
      destruct Hscheme as [H|H]; apply negb_false_iff, String.eqb_eq in H;
        auto. }
    destruct (String.eqb_spec (URL.Host u) EmptyString) as [Hhost|Hhost].
    { apply Hfirst. right. split; [exact Hne|]. right. right.
      exists u. auto. }
    assert (Hacc : acceptable arg).
    { split; [exact Hne|]. exists u. auto. }
    specialize (IH (S i) (acc ++ [TrimSpace arg])).
    destruct (validateURLs_range (S i) args (acc ++ [TrimSpace arg]))
      as [urls|e].
    + destruct IH as [Hall ->]. split; [now constructor|].
      cbn [List.map]. now rewrite <- app_assoc.
    + destruct IH as (pre & a & post & -> & Hpre & Hrej).
      exists (arg :: pre), a, post. cbn [length app].
      split; [reflexivity|]. split; [now constructor|].
      now replace (i + S (length pre) + 1)%nat
        with (S i + length pre + 1)%nat by lia.
Qed.

(** C8, as stated, fails: an argument that [url.Parse] cannot parse is
    turned down with an error of a fifth kind, which is none of the four the
    claim lists, and the list is not returned. *)
Lemma validateURLs_unparsable_argument :
  ~ (forall args : list string,
       validateURLs args = Ok (List.map TrimSpace args) \/
       validateURLs args = Err ErrNoURLs \/
       (exists n, validateURLs args = Err (ErrEmptyArgument n)) \/
       (exists arg, validateURLs args = Err (ErrScheme arg)) \/
       (exists arg, validateURLs args = Err (ErrHost arg))).
Proof.
  intros H. specialize (H ["://example.com"]).
  change (validateURLs ["://example.com"])
    with (Err (A := list string)
            (ErrInvalidURL "://example.com" URL.MissingProtocolScheme)) in H.
  destruct H as [H|[H|[[n H]|[[arg H]|[arg H]]]]]; discriminate.
Qed.

(** C8, amended: [validateURLs] returns an error (and no list) on the empty
    argument list and on the first argument that, once trimmed, is empty,
    or is not parsed by [url.Parse], or has a scheme other than http and
    https, or has an empty host; these are five different kinds of error;
    otherwise it returns the arguments, each with its surrounding white space
    trimmed. ftp://example.com, http:// and the empty string are turned down
    (wrong scheme, missing host, empty argument), https://example.com and the
    same url with blanks around it are accepted. *)
Theorem validateURLs_first_invalid_or_trimmed (args : list string) :
  match validateURLs args with
  | Ok urls =>
      args <> [] /\ Forall acceptable args /\ urls = List.map TrimSpace args
  | Err e =>
      (args = [] /\ e = ErrNoURLs) \/
      (exists pre a post,
         args = pre ++ a :: post /\ Forall acceptable pre /\
         rejected_as (length pre + 1) a e)
  end /\
  validateURLs ["ftp://example.com"] = Err (ErrScheme "ftp://example.com") /\
  validateURLs ["http://"] = Err (ErrHost "http://") /\
  validateURLs [EmptyString] = Err (ErrEmptyArgument 1) /\
  validateURLs ["https://example.com"] = Ok ["https://example.com"] /\
  validateURLs ["  https://example.com  "] = Ok ["https://example.com"].
Proof.
  split; [|repeat split].
  destruct args as [|arg args].
  - cbn. left. auto.
  - unfold validateURLs.
    pose proof (validateURLs_range_spec (arg :: args) 0 []) as H.
    destruct (validateURLs_range 0 (arg :: args) []) as [urls|e].
    + destruct H as [Hall ->]. repeat split; [discriminate|exact Hall].
    + right. exact H.
Qed.

End ValidationFacts.

(** ** What the statistics of one target add up to *)

Section StatsAccounting.
Import Stats Samples.

Lemma wrap_add_wrap a b : Int64.wrap (Int64.wrap a + b) = Int64.wrap (a + b).
Proof.
  unfold Int64.wrap, Int64.modulus.
  replace ((a + 2 ^ 63) mod 2 ^ 64 - 2 ^ 63 + b + 2 ^ 63)
    with ((a + 2 ^ 63) mod 2 ^ 64 + b) by lia.
  rewrite Zplus_mod_idemp_l. f_equal. f_equal. lia.
Qed.

Lemma sum_snoc l x : sum (l ++ [x]) = sum l + x.
Proof.
  unfold sum. induction l as [|y l IH]; cbn; [lia|].
  cbn in IH. rewrite IH. lia.
Qed.

Lemma successes_snoc us (u : sample) :
  successes (us ++ [u]) = (successes us + (if u.2 then 1 else 0))%nat.
Proof.
  unfold successes. rewrite List.filter_app, List.length_app. cbn.
  now destruct u.2.
Qed.

(** X1: fewer than 2^63 updates of a fresh aggregator leave the request
    count at the number of updates and the success count at the number of
    updates flagged successful: no update is lost or counted twice. *)
Theorem counts_are_exact (url : string) (us : list sample) :
  Z.of_nat (length us) < 2 ^ 63 ->
  TotalRequests (updates (NewURLStats url) us) = Z.of_nat (length us) /\
  SuccessCount (updates (NewURLStats url) us) = Z.of_nat (successes us).
Proof.
  induction us as [|u us IH] using rev_ind; intros Hlen.
  - cbn. split; reflexivity.
  - rewrite length_app in Hlen. cbn [length] in Hlen.
    destruct IH as [Hn Hs]; [lia|].
    assert (Hle : (successes us <= length us)%nat).
    { unfold successes. apply List.filter_length_le. }
    rewrite updates_snoc. destruct u as [[d b] ok].
    cbn [update1 Update TotalRequests SuccessCount].
    rewrite Hn, Hs, length_app. cbn [length].
    rewrite (add_small (Z.of_nat (length us)) 1) by lia.
    split; [lia|].
    rewrite successes_snoc. cbn [snd].
    destruct ok; [rewrite add_small|]; lia.
Qed.

Lemma counts_are_exact_witness :
  TotalRequests (updates (NewURLStats "t")
                   [(5, 10, true); (7, 0, false); (1, 3, true)]) = 3 /\
  SuccessCount (updates (NewURLStats "t")
                  [(5, 10, true); (7, 0, false); (1, 3, true)]) = 2.
Proof.
  apply (counts_are_exact "t" [(5, 10, true); (7, 0, false); (1, 3, true)]).
  vm_compute. reflexivity.
Defined.

Lemma totals_wrap (url : string) (us : list sample) :
  TotalDuration (updates (NewURLStats url) us)
    = Int64.wrap (sum (durations us)) /\
  TotalSize (updates (NewURLStats url) us) = Int64.wrap (sum (sizes us)).
Proof.
  induction us as [|u us [IHd IHs]] using rev_ind.
  - split; reflexivity.
  - rewrite updates_snoc. destruct u as [[d b] ok].
    cbn [update1 Update TotalDuration TotalSize].
    unfold durations, sizes in *. rewrite !List.map_app.
    cbn [List.map fst snd]. rewrite !sum_snoc.
    rewrite IHd, IHs. unfold Int64.add. now rewrite !wrap_add_wrap.
Qed.

(** X2: after any sequence of updates of a fresh aggregator the total
    duration is the sum of the durations and the total size the sum of the
    sizes, each reduced to 64 bits; so each total is the exact sum whenever
    that sum fits in an int64, and wraps around silently when it does not. *)
Theorem totals_are_wrapped_sums (url : string) (us : list sample) :
  let s := updates (NewURLStats url) us in
  TotalDuration s = Int64.wrap (sum (durations us)) /\
  TotalSize s = Int64.wrap (sum (sizes us)) /\
  (Int64.in_range (sum (durations us)) ->
   TotalDuration s = sum (durations us)) /\
  (Int64.in_range (sum (sizes us)) -> TotalSize s = sum (sizes us)).
Proof.
  destruct (totals_wrap url us) as [Hd Hs]. cbv zeta.
  split; [exact Hd|]. split; [exact Hs|]. split.
  - intros Hfit. rewrite Hd. now apply wrap_small.
  - intros Hfit. rewrite Hs. now apply wrap_small.
Qed.

Lemma totals_are_wrapped_sums_witness :
  TotalDuration (updates (NewURLStats "t")
                   [(5, 10, true); (7, 0, false); (1, 3, true)]) = 13 /\
  TotalSize (updates (NewURLStats "t")
               [(Int64.MaxInt64, Int64.MaxInt64, true); (1, 1, true)])
    = Int64.MinInt64.
Proof.
  destruct (totals_are_wrapped_sums "t"
              [(5, 10, true); (7, 0, false); (1, 3, true)])
    as (_ & _ & Hd & _).
  destruct (totals_are_wrapped_sums "t"
              [(Int64.MaxInt64, Int64.MaxInt64, true); (1, 1, true)])
    as (_ & Hs & _ & _).
  split.
  - rewrite Hd; [reflexivity|]. vm_compute. split; discriminate.
  - rewrite Hs. vm_compute. reflexivity.
Defined.

(** The minimum is below and the maximum above every sample given. *)
Lemma extremes_bound (url : string) (us : list sample) :
  Z.of_nat (length us) < 2 ^ 63 ->
  let s := updates (NewURLStats url) us in
  Forall (fun d => MinDuration s <= d <= MaxDuration s) (durations us) /\
  Forall (fun b => MinSize s <= b <= MaxSize s) (sizes us).
Proof.
  induction us as [|u us IH] using rev_ind; intros Hlen.
  - cbn. split; constructor.
  - rewrite length_app in Hlen. cbn [length] in Hlen.
    pose proof (counters_exact url us ltac:(lia)) as Hc. cbv zeta in Hc.
    destruct Hc as [Hn _].
    destruct IH as [IHd IHs]; [lia|].
    cbv zeta. rewrite updates_snoc. destruct u as [[d b] ok].
    unfold durations, sizes in *. rewrite !List.map_app.
    cbn [List.map fst snd].
    cbn [update1 Update MinDuration MaxDuration MinSize MaxSize].
    rewrite Hn, add_small by lia.
    destruct us as [|v us'].
    + cbn. change (Z.of_nat 0 + 1 =? 1) with true. cbn [orb].
      split; repeat constructor; z_cases; lia.
    + set (s := updates (NewURLStats url) (v :: us')) in *.
      destruct (Z.eqb_spec (Z.of_nat (length (v :: us')) + 1) 1);
        [cbn [length] in *; lia|].
      cbn [orb].
      split; apply Forall_app; split;
        try (eapply Forall_impl; [eassumption|]; cbn beta; intros x Hx);
        try (apply Forall_cons; split; [|apply Forall_nil]);
        z_cases; lia.
Qed.

(** X3: after at least one and fewer than 2^63 updates of a fresh
    aggregator, the minimum duration is the least of the durations given
    (one of them, and below all), whatever the unset value was; the maximum
    duration is above all of them and is one of them or still the initial 0;
    and likewise for sizes. *)
Theorem extremes_are_attained (url : string) (us : list sample) :
  us <> [] ->
  Z.of_nat (length us) < 2 ^ 63 ->
  let s := updates (NewURLStats url) us in
  (In (MinDuration s) (durations us) /\
   Forall (fun d => MinDuration s <= d) (durations us)) /\
  ((In (MaxDuration s) (durations us) \/ MaxDuration s = 0) /\
   Forall (fun d => d <= MaxDuration s) (durations us)) /\
  (In (MinSize s) (sizes us) /\
   Forall (fun b => MinSize s <= b) (sizes us)) /\
  ((In (MaxSize s) (sizes us) \/ MaxSize s = 0) /\
   Forall (fun b => b <= MaxSize s) (sizes us)).
Proof.
  intros Hne Hlen s.
  destruct (extremes_bound url us Hlen) as [Bd Bs]. fold s in Bd, Bs.
  assert (Hin : (In (MinDuration s) (durations us) /\
                 (In (MaxDuration s) (durations us) \/ MaxDuration s = 0)) /\
                (In (MinSize s) (sizes us) /\
                 (In (MaxSize s) (sizes us) \/ MaxSize s = 0))).
  { subst s. clear Bd Bs.
    induction us as [|u us IH] using rev_ind; [congruence|].
    rewrite length_app in Hlen. cbn [length] in Hlen.
    pose proof (counters_exact url us ltac:(lia)) as Hc. cbv zeta in Hc.
    destruct Hc as [Hn _].
    rewrite updates_snoc. destruct u as [[d b] ok].
    unfold durations, sizes in *. rewrite !List.map_app.
    cbn [List.map fst snd].
    cbn [update1 Update MinDuration MaxDuration MinSize MaxSize].
    rewrite Hn, add_small by lia.
    destruct us as [|v us'].
    - cbn. change (Z.of_nat 0 + 1 =? 1) with true. cbn [orb].
      repeat split; try (now left).
      + destruct (Z.gtb_spec d 0); [left; now left|now right].
      + destruct (Z.gtb_spec b 0); [left; now left|now right].
    - destruct IH as ((Hmd & HMd) & (Hms & HMs)); [discriminate|lia|].
      set (s := updates (NewURLStats url) (v :: us')) in *.
      destruct (Z.eqb_spec (Z.of_nat (length (v :: us')) + 1) 1);
        [cbn [length] in *; lia|].
      cbn [orb]. repeat split.
      + apply List.in_or_app. destruct (Z.ltb_spec d (MinDuration s));
          [right; now left|now left].
      + destruct (Z.gtb_spec d (MaxDuration s)).
        * left. apply List.in_or_app. right. now left.
        * destruct HMd as [HMd|HMd];
            [left; apply List.in_or_app; now left|now right].
      + apply List.in_or_app. destruct (Z.ltb_spec b (MinSize s));
          [right; now left|now left].
      + destruct (Z.gtb_spec b (MaxSize s)).
        * left. apply List.in_or_app. right. now left.
        * destruct HMs as [HMs|HMs];
            [left; apply List.in_or_app; now left|now right]. }
  destruct Hin as ((Hmd & HMd) & (Hms & HMs)).
  repeat split; try assumption;
    (eapply Forall_impl; [first [exact Bd|exact Bs]|]; cbn beta; intros; lia).
Qed.

Lemma extremes_are_attained_witness :
  let s := updates (NewURLStats "t")
             [(5, 10, true); (7, 0, false); (1, 3, true)] in
  MinDuration s = 1 /\ MaxDuration s = 7 /\ MinSize s = 0 /\ MaxSize s = 10 /\
  Forall (fun d => MinDuration s <= d) [5; 7; 1].
Proof.
  pose proof (extremes_are_attained "t"
                [(5, 10, true); (7, 0, false); (1, 3, true)]) as H.
  destruct H as ((_ & Hmin) & _); [discriminate|vm_compute; reflexivity|].
  cbv zeta. repeat split; try (vm_compute; reflexivity). exact Hmin.
Defined.

Lemma sum_bounds (l : list Z) (lo hi : Z) :
  Forall (fun x => lo <= x <= hi) l ->
  lo * Z.of_nat (length l) <= sum l <= hi * Z.of_nat (length l).
Proof.
  unfold sum. induction l as [|x l IH]; intros Hb.
  - cbn. lia.
  - inversion Hb; subst. specialize (IH ltac:(assumption)).
    cbn [List.fold_right length]. lia.
Qed.

(** X4: for at least one and fewer than 2^63 updates of a fresh aggregator
    with non-negative durations and sizes whose sums fit in 64 bits, the
    average duration lies between the minimum and the maximum duration, and
    the average size between the minimum and the maximum size. *)
Theorem average_between_extremes (url : string) (us : list sample) :
  us <> [] ->
  Z.of_nat (length us) < 2 ^ 63 ->
  Forall nonneg us ->
  sum (durations us) < 2 ^ 63 ->
  sum (sizes us) < 2 ^ 63 ->
  let s := updates (NewURLStats url) us in
  MinDuration s <= AverageDuration s <= MaxDuration s /\
  MinSize s <= AverageSize s <= MaxSize s.
Proof.
  intros Hne Hlen Hnn Hsd Hss s.
  destruct (extremes_bound url us Hlen) as [Bd Bs]. fold s in Bd, Bs.
  pose proof (counters_exact url us Hlen) as Hc. cbv zeta in Hc.
  destruct Hc as [Hn _]. fold s in Hn.
  destruct (totals_wrap url us) as [Htd Hts]. fold s in Htd, Hts.
  assert (Hlenpos : 0 < Z.of_nat (length us)).
  { destruct us; [congruence|cbn [length]; lia]. }
  assert (Hd0 : 0 <= sum (durations us) /\ 0 <= sum (sizes us)).
  { clear -Hnn. unfold sum, durations, sizes.
    induction Hnn as [|[[d b] ok] us [Hd Hb] _ IH]; cbn in *; lia. }
  apply sum_bounds in Bd. apply sum_bounds in Bs.
  unfold durations, sizes in Bd, Bs. rewrite List.length_map in Bd, Bs.
  fold (durations us) in Bd. fold (sizes us) in Bs.
  unfold AverageDuration, AverageSize. rewrite Htd, Hts, Hn.
  destruct (Z.eqb_spec (Z.of_nat (length us)) 0); [lia|].
  rewrite !div_pos by lia.
  rewrite !wrap_small
    by (unfold Int64.in_range, Int64.MinInt64, Int64.MaxInt64; lia).
  rewrite !Z.quot_div_nonneg by lia.
  clearbody s. destruct Bd as [Bd1 Bd2], Bs as [Bs1 Bs2].
  rewrite Z.mul_comm in Bd1, Bd2, Bs1, Bs2.
  repeat split.
  - now apply Z.div_le_lower_bound.
  - now apply Z.div_le_upper_bound.
  - now apply Z.div_le_lower_bound.
  - now apply Z.div_le_upper_bound.
Qed.

Lemma average_between_extremes_witness :
  let s := updates (NewURLStats "t")
             [(5, 10, true); (7, 0, false); (1, 3, true)] in
  MinDuration s <= AverageDuration s <= MaxDuration s /\
  MinSize s <= AverageSize s <= MaxSize s.
Proof.
  apply (average_between_extremes "t"
           [(5, 10, true); (7, 0, false); (1, 3, true)]).
  - discriminate.
  - vm_compute. reflexivity.
  - repeat constructor; cbn; lia.
  - vm_compute. reflexivity.
  - vm_compute. reflexivity.
Defined.

End StatsAccounting.

(** ** What the monitor keeps for each target *)

Section MonitorAccounting.
Import Stats HTTP Polls.

Lemma NewMonitor_stats_from (urls : list string) :
  forall (h0 : gmap addr URLStats) (st0 : gmap string addr),
    tracks h0 st0 NewURLStats ->
    let r := fold_left
               (fun (acc : gmap addr URLStats * gmap string addr)
                    (url : string) =>
                  let '(h1, p) := alloc acc.1 (NewURLStats url) in
                  (h1, <[url := p]> acc.2))
               urls (h0, st0) in
    tracks r.1 r.2 NewURLStats /\
    (forall url, is_Some (r.2 !! url) <-> is_Some (st0 !! url) \/ In url urls) /\
    (forall q, is_Some (h0 !! q) -> r.1 !! q = h0 !! q).
Proof.
  induction urls as [|url urls IH]; intros h0 st0 Htr.
  - cbn. split; [exact Htr|]. split; [|auto]. intros u. tauto.
  - cbn [fold_left]. cbn [fst snd].
    destruct (alloc_fresh h0 (NewURLStats url)) as (Hnew & Hp & Hold).
    destruct (alloc h0 (NewURLStats url)) as [h1 p] eqn:Ha.
    cbn [fst snd] in *.
    destruct Htr as [Hcontent Hinj].
    assert (Htr1 : tracks h1 (<[url := p]> st0) NewURLStats).
    { split.
      - intros u q Hq. destruct (decide (url = u)) as [<-|Hne].
        + rewrite lookup_insert_eq in Hq. injection Hq as <-. exact Hp.
        + rewrite lookup_insert_ne in Hq by exact Hne.
          rewrite Hold; eauto.
      - intros u1 u2 q H1 H2.
        destruct (decide (url = u1)) as [<-|Hne1];
          destruct (decide (url = u2)) as [<-|Hne2]; try reflexivity.
        + rewrite lookup_insert_eq in H1. injection H1 as <-.
          rewrite lookup_insert_ne in H2 by exact Hne2.
          apply Hcontent in H2. congruence.
        + rewrite lookup_insert_eq in H2. injection H2 as <-.
          rewrite lookup_insert_ne in H1 by exact Hne1.
          apply Hcontent in H1. congruence.
        + rewrite lookup_insert_ne in H1 by exact Hne1.
          rewrite lookup_insert_ne in H2 by exact Hne2. eauto. }
    destruct (IH h1 (<[url := p]> st0) Htr1) as (Htr' & Hdom & Hkeep).
    split; [exact Htr'|]. split.
    + intros u. rewrite Hdom. cbn [In].
      destruct (decide (url = u)) as [<-|Hne].
      * rewrite lookup_insert_eq. split; [auto|]. intros _. left. eauto.
      * rewrite lookup_insert_ne by exact Hne. tauto.
    + intros q Hq. rewrite Hkeep by (rewrite Hold; exact Hq).
      now apply Hold.
Qed.

Lemma NewMonitor_tracks (h : gmap addr URLStats) (urls : list string) :
  let hm := Monitor.NewMonitor h urls in
  Monitor.urls hm.2 = urls /\
  tracks hm.1 (Monitor.stats hm.2) NewURLStats /\
  (forall url, is_Some (Monitor.stats hm.2 !! url) <-> In url urls) /\
  (forall q, is_Some (h !! q) -> hm.1 !! q = h !! q).
Proof.
  unfold Monitor.NewMonitor, Monitor.NewMonitor_stats.
  pose proof (NewMonitor_stats_from urls h ∅) as H. cbv zeta in H.
  destruct (fold_left _ urls (h, ∅)) as [h' st] eqn:Hfold.
  cbn [fst snd] in *.
  destruct H as (Htr & Hdom & Hkeep).
  { split; intros *; rewrite lookup_empty; discriminate. }
  split; [reflexivity|]. split; [exact Htr|]. split; [|exact Hkeep].
  intros url. rewrite Hdom, lookup_empty. split.
  - intros [[x Hx]|Hin]; [discriminate|exact Hin].
  - auto.
Qed.

(** X5: the constructor gives every url of its list an aggregator in the
    initial state, gives no other url one, leaves the objects that already
    exist as they are and keeps the list; the statistics map has one entry
    for each different url, so as many entries as urls when none is
    repeated. *)
Theorem NewMonitor_initial_statistics
        (h : gmap addr URLStats) (urls : list string) :
  let hm := Monitor.NewMonitor h urls in
  Monitor.urls hm.2 = urls /\
  (forall url, In url urls ->
     Monitor.stat_of hm.1 hm.2 url = Some (NewURLStats url)) /\
  (forall url, ~ In url urls -> Monitor.stat_of hm.1 hm.2 url = None) /\
  (forall q, is_Some (h !! q) -> hm.1 !! q = h !! q) /\
  dom (Monitor.stats hm.2) = list_to_set urls /\
  (NoDup urls -> size (Monitor.stats hm.2) = length urls).
Proof.
  destruct (NewMonitor_tracks h urls) as (Hurls & [Hcontent _] & Hdom & Hkeep).
  cbv zeta. set (hm := Monitor.NewMonitor h urls) in *.
  assert (Hset : dom (Monitor.stats hm.2) = list_to_set urls).
  { apply set_eq. intros u. rewrite elem_of_dom, Hdom, elem_of_list_to_set.
    now rewrite list_elem_of_In. }
  split; [exact Hurls|]. split; [|split; [|split; [exact Hkeep|split]]].
  - intros url Hin. unfold Monitor.stat_of.
    apply Hdom in Hin. destruct Hin as [p Hp]. rewrite Hp. eauto.
  - intros url Hnot. unfold Monitor.stat_of.
    destruct (Monitor.stats hm.2 !! url) as [p|] eqn:Hp; [|reflexivity].
    exfalso. apply Hnot, Hdom. eauto.
  - exact Hset.
  - intros Hnd. rewrite <- size_dom, Hset.
    now apply size_list_to_set.
Qed.

Lemma NewMonitor_initial_statistics_witness :
  let hm := Monitor.NewMonitor ∅ ["https://a.example"; "https://b.example"] in
  Monitor.stat_of hm.1 hm.2 "https://b.example"
    = Some (NewURLStats "https://b.example") /\
  Monitor.stat_of hm.1 hm.2 "https://c.example" = None /\
  size (Monitor.stats hm.2) = 2%nat.
Proof.
  destruct (NewMonitor_initial_statistics
              ∅ ["https://a.example"; "https://b.example"])
    as (_ & Hin & Hout & _ & _ & Hsize).
  cbv zeta. split; [|split].
  - apply Hin. cbn. auto.
  - apply Hout. cbn. intros [H|[H|[]]]; discriminate.
  - apply Hsize. repeat constructor; cbn; intros H;
      repeat (apply elem_of_cons in H as [H|H]; [discriminate|]);
      inversion H.
Defined.

Lemma samples_for_app url es1 es2 :
  samples_for url (es1 ++ es2) = samples_for url es1 ++ samples_for url es2.
Proof. unfold samples_for. apply List.flat_map_app. Qed.

Lemma run_app es1 : forall es2 hm,
  Monitor.run hm (es1 ++ es2) =
  match Monitor.run hm es1 with
  | Some hm' => Monitor.run hm' es2
  | None => None
  end.
Proof.
  induction es1 as [|e es1 IH]; intros es2 hm; cbn; [reflexivity|].
  destruct (Monitor.step hm e); [apply IH|reflexivity].
Qed.

(** One event keeps the statistics map and the url list, and moves the
    aggregators as [after_polls] says. *)
Lemma step_tracks (hm : gmap addr URLStats * Monitor.Monitor)
      (done : list Monitor.Event) (e : Monitor.Event) :
  tracks hm.1 (Monitor.stats hm.2) (after_polls done) ->
  match e with
  | Monitor.Poll u _ => is_Some (Monitor.stats hm.2 !! u)
  | Monitor.Display => True
  end ->
  exists hm',
    Monitor.step hm e = Some hm' /\
    Monitor.stats hm'.2 = Monitor.stats hm.2 /\
    Monitor.urls hm'.2 = Monitor.urls hm.2 /\
    tracks hm'.1 (Monitor.stats hm'.2) (after_polls (done ++ [e])).
Proof.
  destruct hm as [h m]. cbn [fst snd]. intros [Hcontent Hinj] He.
  destruct e as [url a|]; cbn [Monitor.step fst snd].
  - destruct He as [p Hp]. pose proof (Hcontent url p Hp) as Hs.
    unfold Monitor.makeRequest.
    destruct (Monitor.recorded a) as [[d b] ok] eqn:Hrec.
    rewrite (updateStats_spec h m url p _ d b ok Hp Hs).
    eexists. split; [reflexivity|]. cbn [fst snd Monitor.set_updatedData
      Monitor.stats Monitor.urls].
    split; [reflexivity|]. split; [reflexivity|]. split; [|exact Hinj].
    intros u q Hq. unfold after_polls. rewrite samples_for_app.
    cbn [samples_for List.flat_map]. rewrite app_nil_r.
    destruct (String.eqb_spec url u) as [<-|Hne].
    + assert (q = p) as -> by congruence.
      rewrite lookup_insert_eq, updates_snoc, Hrec. reflexivity.
    + rewrite app_nil_r.
      rewrite lookup_insert_ne by (intros ->; apply Hne; eauto).
      now apply Hcontent.
  - exists (if Chan.recvq (Monitor.updatedData m) then (h, m)
            else (h, (Monitor.displayLoop_select m).1)).
    destruct (Chan.recvq (Monitor.updatedData m)); cbn;
      (split; [reflexivity|]; split; [reflexivity|]; split; [reflexivity|]);
      (split; [|exact Hinj]); intros u q Hq; unfold after_polls;
      rewrite samples_for_app; cbn; rewrite app_nil_r; now apply Hcontent.
Qed.

Lemma run_tracks (es : list Monitor.Event) :
  forall (hm : gmap addr URLStats * Monitor.Monitor) (done : list Monitor.Event),
    tracks hm.1 (Monitor.stats hm.2) (after_polls done) ->
    Forall (fun e => match e with
                     | Monitor.Poll u _ => is_Some (Monitor.stats hm.2 !! u)
                     | Monitor.Display => True
                     end) es ->
    exists hm',
      Monitor.run hm es = Some hm' /\
      Monitor.stats hm'.2 = Monitor.stats hm.2 /\
      Monitor.urls hm'.2 = Monitor.urls hm.2 /\
      tracks hm'.1 (Monitor.stats hm'.2) (after_polls (done ++ es)).
Proof.
  induction es as [|e es IH]; intros hm done Htr Hall.
  - exists hm. rewrite app_nil_r. cbn. auto.
  - inversion Hall as [|? ? He Hrest]; subst.
    destruct (step_tracks hm done e Htr He) as (hm1 & Hstep & Hst & Hu & Htr1).
    destruct (IH hm1 (done ++ [e]) Htr1) as (hm' & Hrun & Hst' & Hu' & Htr').
    { rewrite Hst. exact Hrest. }
    exists hm'. cbn [Monitor.run]. rewrite Hstep.
    split; [exact Hrun|]. split; [congruence|]. split; [congruence|].
    now rewrite <- app_assoc in Htr'.
Qed.

Lemma run_from_NewMonitor (h : gmap addr URLStats) (urls : list string)
      (es : list Monitor.Event) :
  polls_within urls es ->
  exists hm',
    Monitor.run (Monitor.NewMonitor h urls) es = Some hm' /\
    Monitor.urls hm'.2 = urls /\
    (forall url, is_Some (Monitor.stats hm'.2 !! url) <-> In url urls) /\
    tracks hm'.1 (Monitor.stats hm'.2) (after_polls es).
Proof.
  intros Hin.
  destruct (NewMonitor_tracks h urls) as (Hurls & Htr & Hdom & _).
  destruct (run_tracks es (Monitor.NewMonitor h urls) [] Htr)
    as (hm' & Hrun & Hst & Hu & Htr').
  { eapply Forall_impl; [exact Hin|]. intros [u a|]; [|auto].
    intros Hu. now apply Hdom. }
  exists hm'. split; [exact Hrun|]. split; [congruence|].
  split; [|exact Htr']. intros url. rewrite Hst. apply Hdom.
Qed.

(** X6: from the constructor on, any interleaving of polls of the listed
    urls and redraws runs without a panic, keeps the url list, and leaves
    the aggregator of each url in the state its own polls alone produce, in
    their order: no update is lost and a poll of one url never touches the
    statistics of another. *)
Theorem polls_are_accounted_per_url
        (h : gmap addr URLStats) (urls : list string)
        (es : list Monitor.Event) :
  polls_within urls es ->
  exists h' m',
    Monitor.run (Monitor.NewMonitor h urls) es = Some (h', m') /\
    Monitor.urls m' = urls /\
    forall url, In url urls ->
      Monitor.stat_of h' m' url
        = Some (updates (NewURLStats url) (samples_for url es)).
Proof.
  intros Hin.
  destruct (run_from_NewMonitor h urls es Hin)
    as ([h' m'] & Hrun & Hu & Hdom & [Hcontent _]).
  exists h', m'. split; [exact Hrun|]. split; [exact Hu|].
  intros url Hurl. unfold Monitor.stat_of. cbn [fst snd] in *.
  apply Hdom in Hurl. destruct Hurl as [p Hp]. rewrite Hp.
  now apply Hcontent.
Qed.

Lemma polls_are_accounted_per_url_witness :
  exists h' m',
    Monitor.run (Monitor.NewMonitor ∅ ["https://a.example"; "https://b.example"])
      [Monitor.Poll "https://a.example"
         (Monitor.Sent 5 (DoResp 200 (ReadAllOk 10)));
       Monitor.Display;
       Monitor.Poll "https://b.example" (Monitor.Sent 9 DoErr);
       Monitor.Poll "https://a.example" (Monitor.NewRequestErr 1)]
    = Some (h', m') /\
    TotalRequests <$> Monitor.stat_of h' m' "https://a.example" = Some 2 /\
    TotalRequests <$> Monitor.stat_of h' m' "https://b.example" = Some 1.
Proof.
  destruct (polls_are_accounted_per_url
              ∅ ["https://a.example"; "https://b.example"]
              [Monitor.Poll "https://a.example"
                 (Monitor.Sent 5 (DoResp 200 (ReadAllOk 10)));
               Monitor.Display;
               Monitor.Poll "https://b.example" (Monitor.Sent 9 DoErr);
               Monitor.Poll "https://a.example" (Monitor.NewRequestErr 1)])
    as (h' & m' & Hrun & _ & Hstat).
  - unfold polls_within. repeat (constructor; [cbn; auto|]). constructor.
  - exists h', m'. split; [exact Hrun|].
    rewrite (Hstat "https://a.example") by (cbn; auto).
    rewrite (Hstat "https://b.example") by (cbn; auto).
    split; vm_compute; reflexivity.
Defined.

(** X7: a poll for a url the monitor was not built with finds no aggregator
    (a nil pointer) and panics, whatever ran before it and whatever would
    come after. *)
Theorem poll_of_unlisted_url_panics
        (h : gmap addr URLStats) (urls : list string)
        (pre post : list Monitor.Event) (url : string) (a : Monitor.Attempt) :
  polls_within urls pre ->
  ~ In url urls ->
  Monitor.run (Monitor.NewMonitor h urls) (pre ++ Monitor.Poll url a :: post)
    = None.
Proof.
  intros Hpre Hnot.
  destruct (run_from_NewMonitor h urls pre Hpre)
    as ([h' m'] & Hrun & _ & Hdom & _).
  rewrite run_app, Hrun. cbn [Monitor.run Monitor.step fst snd].
  unfold Monitor.makeRequest, Monitor.updateStats.
  destruct (Monitor.recorded a) as [[d b] ok].
  destruct (Monitor.stats m' !! url) as [p|] eqn:Hp; [|reflexivity].
  exfalso. apply Hnot, Hdom. cbn. eauto.
Qed.

Lemma poll_of_unlisted_url_panics_witness :
  Monitor.run (Monitor.NewMonitor ∅ ["https://a.example"])
    ([Monitor.Poll "https://a.example" (Monitor.Sent 5 DoErr)]
       ++ Monitor.Poll "https://b.example" (Monitor.Sent 5 DoErr)
       :: [Monitor.Display])
  = None.
Proof.
  apply (poll_of_unlisted_url_panics ∅ ["https://a.example"]).
  - unfold polls_within. repeat (constructor; [cbn; auto|]). constructor.
  - cbn. intros [H|[]]. discriminate.
Defined.

Lemma samples_for_own url (l : list Monitor.Attempt) :
  samples_for url (List.map (Monitor.Poll url) l) = List.map Monitor.recorded l.
Proof.
  induction l as [|a l IH]; [reflexivity|].
  cbn. rewrite String.eqb_refl. cbn. f_equal. exact IH.
Qed.

(** The loop of a worker makes the requests of its ticks, one after the
    other, up to the first [ctx.Done()]. *)
Lemma monitorURL_loop_run url (ticks : list Monitor.Attempt) :
  forall h m,
    (forall rest,
       Monitor.monitorURL_loop h m url
         (List.map Monitor.TickerC ticks ++ Monitor.CtxDone :: rest)
       = match Monitor.run (h, m) (List.map (Monitor.Poll url) ticks) with
         | Some hm => Some (hm, true)
         | None => None
         end) /\
    Monitor.monitorURL_loop h m url (List.map Monitor.TickerC ticks)
    = match Monitor.run (h, m) (List.map (Monitor.Poll url) ticks) with
      | Some hm => Some (hm, false)
      | None => None
      end.
Proof.
  induction ticks as [|a ticks IH]; intros h m.
  - split; reflexivity.
  - cbn [List.map app Monitor.monitorURL_loop Monitor.run Monitor.step
           fst snd].
    destruct (Monitor.makeRequest h m url a) as [[h1 m1]|];
      [apply IH|split; reflexivity].
Qed.

(** X8: a worker of a listed url makes its first request at once and one
    more for each tick it selects; when it selects the cancelled context it
    returns without another request, whatever ticks were still to come; until
    then it has not returned. Its aggregator holds exactly those requests. *)
Theorem worker_polls_until_cancelled
        (h : gmap addr URLStats) (urls : list string) (url : string)
        (first : Monitor.Attempt) (ticks : list Monitor.Attempt)
        (rest : list Monitor.Select) :
  In url urls ->
  let hm := Monitor.NewMonitor h urls in
  exists h' m',
    Monitor.monitorURL hm.1 hm.2 url first
      (List.map Monitor.TickerC ticks ++ Monitor.CtxDone :: rest)
      = Some (h', m', true) /\
    Monitor.monitorURL hm.1 hm.2 url first (List.map Monitor.TickerC ticks)
      = Some (h', m', false) /\
    Monitor.stat_of h' m' url
      = Some (updates (NewURLStats url)
                (List.map Monitor.recorded (first :: ticks))).
Proof.
  intros Hin hm.
  destruct (run_from_NewMonitor h urls
              (List.map (Monitor.Poll url) (first :: ticks)))
    as ([h' m'] & Hrun & _ & Hdom & [Hcontent _]).
  { unfold polls_within. apply List.Forall_forall. intros e He.
    apply List.in_map_iff in He. destruct He as (a & <- & _). exact Hin. }
  fold hm in Hrun. destruct hm as [h0 m0]. cbn [fst snd] in *.
  cbn [List.map Monitor.run Monitor.step fst snd] in Hrun.
  unfold Monitor.monitorURL.
  destruct (Monitor.makeRequest h0 m0 url first) as [[h1 m1]|];
    [|discriminate].
  destruct (monitorURL_loop_run url ticks h1 m1) as [Hdone Hwait].
  rewrite Hdone, Hwait, Hrun.
  exists h', m'. split; [reflexivity|]. split; [reflexivity|].
  unfold Monitor.stat_of.
  destruct (proj2 (Hdom url) Hin) as [p Hp]. rewrite Hp.
  rewrite (Hcontent url p Hp). unfold after_polls.
  now rewrite samples_for_own.
Qed.

Lemma worker_polls_until_cancelled_witness :
  let hm := Monitor.NewMonitor ∅ ["https://a.example"] in
  exists h' m',
    Monitor.monitorURL hm.1 hm.2 "https://a.example"
      (Monitor.Sent 5 (DoResp 200 (ReadAllOk 10)))
      (List.map Monitor.TickerC [Monitor.Sent 6 DoErr]
         ++ Monitor.CtxDone :: [Monitor.TickerC (Monitor.Sent 7 DoErr)])
      = Some (h', m', true) /\
    TotalRequests <$> Monitor.stat_of h' m' "https://a.example" = Some 2.
Proof.
  destruct (worker_polls_until_cancelled
              ∅ ["https://a.example"] "https://a.example"
              (Monitor.Sent 5 (DoResp 200 (ReadAllOk 10)))
              [Monitor.Sent 6 DoErr]
              [Monitor.TickerC (Monitor.Sent 7 DoErr)])
    as (h' & m' & Hdone & _ & Hstat).
  - cbn. auto.
  - cbv zeta. exists h', m'. split; [exact Hdone|].
    rewrite Hstat. vm_compute. reflexivity.
Defined.

Lemma polls_fill_buffer (es : list Monitor.Event) :
  forall hm hm',
    polls_only es ->
    Monitor.run hm es = Some hm' ->
    Chan.recvq (Monitor.updatedData hm.2) = false ->
    Chan.recvq (Monitor.updatedData hm'.2) = false /\
    Chan.dataqsiz (Monitor.updatedData hm'.2)
      = Chan.dataqsiz (Monitor.updatedData hm.2) /\
    Chan.qcount (Monitor.updatedData hm'.2)
      = Nat.max (Chan.qcount (Monitor.updatedData hm.2))
          (Nat.min (Chan.qcount (Monitor.updatedData hm.2) + length es)
             (Chan.dataqsiz (Monitor.updatedData hm.2))).
Proof.
  induction es as [|e es IH]; intros hm hm' Hall Hrun Hrecv.
  - cbn in Hrun. injection Hrun as <-. cbn [length]. repeat split; auto. lia.
  - inversion Hall as [|? ? He Hrest]; subst.
    cbn [Monitor.run] in Hrun.
    destruct (Monitor.step hm e) as [hm1|] eqn:Hstep; [|discriminate].
    destruct e as [url a|]; [|contradiction].
    destruct hm as [h m], hm1 as [h1 m1]. cbn [Monitor.step fst snd] in *.
    pose proof (makeRequest_channel _ _ _ _ _ _ Hstep) as Hch.
    unfold Chan.trySend in Hch. rewrite Hrecv in Hch.
    destruct (IH (h1, m1) hm' Hrest Hrun) as (Hr & Hcap & Hq).
    { cbn [snd]. rewrite Hch.
      destruct (Nat.ltb_spec (Chan.qcount (Monitor.updatedData m))
                  (Chan.dataqsiz (Monitor.updatedData m))); cbn; auto. }
    cbn [snd] in Hr, Hcap, Hq. rewrite Hch in Hcap, Hq.
    cbn [length].
    destruct (Nat.ltb_spec (Chan.qcount (Monitor.updatedData m))
                (Chan.dataqsiz (Monitor.updatedData m)));
      cbn [fst Chan.qcount Chan.dataqsiz] in Hcap, Hq;
      (split; [exact Hr|]; split; [exact Hcap|]); rewrite Hq; lia.
Qed.

(** X9: after the constructor and any number of polls with no redraw in
    between, the number of pending notifications is the number of polls up
    to 100 and exactly 100 beyond: below the capacity every poll adds a
    notification of its own (nothing is coalesced), above it they are
    dropped. *)
Theorem pending_notifications_count
        (h : gmap addr URLStats) (urls : list string)
        (es : list Monitor.Event) h' m' :
  polls_only es ->
  Monitor.run (Monitor.NewMonitor h urls) es = Some (h', m') ->
  Chan.qcount (Monitor.updatedData m') = Nat.min (length es) 100.
Proof.
  intros Hall Hrun.
  destruct (polls_fill_buffer es _ _ Hall Hrun) as (_ & _ & Hq).
  { now rewrite NewMonitor_channel. }
  cbn [snd] in Hq. rewrite NewMonitor_channel in Hq. cbn in Hq.
  rewrite Hq. lia.
Qed.

Lemma pending_notifications_count_witness :
  match Monitor.run (Monitor.NewMonitor ∅ ["https://a.example"])
          (List.repeat (Monitor.Poll "https://a.example" (Monitor.Sent 5 DoErr))
             3) with
  | Some (h', m') => Chan.qcount (Monitor.updatedData m') = 3%nat
  | None => False
  end.
Proof.
  destruct (Monitor.run (Monitor.NewMonitor ∅ ["https://a.example"])
              (List.repeat
                 (Monitor.Poll "https://a.example" (Monitor.Sent 5 DoErr)) 3))
    as [[h' m']|] eqn:Hrun.
  - assert (Hall : polls_only
                     (List.repeat
                        (Monitor.Poll "https://a.example"
                           (Monitor.Sent 5 DoErr)) 3))
      by (cbn; repeat constructor).
    exact (pending_notifications_count _ _ _ _ _ Hall Hrun).
  - vm_compute in Hrun. discriminate.
Defined.

End MonitorAccounting.

(** ** The unbuffered notification channel of the shutdown-driven revision *)

Section ShutdownFacts.
Import Stats HTTP.

Lemma shutdown_makeRequest_channel h m url d r h' m' :
  ShutdownMonitor.makeRequest h m url d r = Some (h', m') ->
  ShutdownMonitor.updatedData m'
    = (Chan.trySend (ShutdownMonitor.updatedData m)).1.
Proof.
  unfold ShutdownMonitor.makeRequest, ShutdownMonitor.updateStats.
  destruct (ShutdownMonitor.recorded d r) as [[d0 b] ok].
  destruct (ShutdownMonitor.stats m !! url) as [p|]; [|discriminate].
  destruct (call_Update h p d0 b ok); [|discriminate].
  intros H. injection H as _ <-. reflexivity.
Qed.

Lemma shutdown_step_unbuffered hm e hm' :
  ShutdownLoop.step hm e = Some hm' ->
  ShutdownLoop.unbuffered (ShutdownMonitor.updatedData hm.2) ->
  ShutdownLoop.unbuffered (ShutdownMonitor.updatedData hm'.2).
Proof.
  destruct hm as [h m], hm' as [h' m'], e as [url d r|];
    cbn [ShutdownLoop.step fst snd]; unfold ShutdownLoop.unbuffered.
  - intros H [Hcap Hq]. rewrite (shutdown_makeRequest_channel _ _ _ _ _ _ _ H).
    unfold Chan.trySend. rewrite Hcap, Hq.
    destruct (Chan.recvq (ShutdownMonitor.updatedData m)); cbn; auto.
  - destruct (Chan.recvq (ShutdownMonitor.updatedData m)).
    + intros H. injection H as _ <-. auto.
    + intros H [Hcap Hq]. injection H as _ <-. cbn.
      unfold Chan.recv. rewrite Hq. cbn. auto.
Qed.

Lemma shutdown_run_unbuffered es : forall hm hm',
  ShutdownLoop.run hm es = Some hm' ->
  ShutdownLoop.unbuffered (ShutdownMonitor.updatedData hm.2) ->
  ShutdownLoop.unbuffered (ShutdownMonitor.updatedData hm'.2).
Proof.
  induction es as [|e es IH]; intros hm hm'; cbn.
  - intros H. injection H as <-. auto.
  - destruct (ShutdownLoop.step hm e) as [hm1|] eqn:Hstep; [|discriminate].
    intros Hrun Hok. apply (IH hm1 hm' Hrun).
    eapply shutdown_step_unbuffered; eauto.
Qed.

(** X10: in the shutdown-driven revision the notification channel is
    unbuffered: through any interleaving of polls and redraws nothing is ever
    pending on it. A poll that ends while the display loop is not waiting in
    its select leaves the channel as it was, so its notification is lost; a
    poll that ends while the display loop waits hands it the notification
    and the loop waits no longer. *)
Theorem unbuffered_notification_needs_waiting_display
        (h : gmap addr URLStats) (urls : list string)
        (es : list ShutdownLoop.Event) h' m' :
  ShutdownLoop.run (ShutdownMonitor.NewMonitor h urls) es = Some (h', m') ->
  Chan.dataqsiz (ShutdownMonitor.updatedData m') = 0%nat /\
  Chan.qcount (ShutdownMonitor.updatedData m') = 0%nat /\
  forall url d r h'' m'',
    ShutdownMonitor.makeRequest h' m' url d r = Some (h'', m'') ->
    Chan.recvq (ShutdownMonitor.updatedData m'') = false /\
    (Chan.recvq (ShutdownMonitor.updatedData m') = false ->
     ShutdownMonitor.updatedData m'' = ShutdownMonitor.updatedData m' /\
     (Chan.trySend (ShutdownMonitor.updatedData m')).2 = false) /\
    (Chan.recvq (ShutdownMonitor.updatedData m') = true ->
     (Chan.trySend (ShutdownMonitor.updatedData m')).2 = true).
Proof.
  intros Hrun.
  assert (Hok : ShutdownLoop.unbuffered (ShutdownMonitor.updatedData m')).
  { apply (shutdown_run_unbuffered es _ (h', m') Hrun).
    unfold ShutdownMonitor.NewMonitor.
    destruct (Monitor.NewMonitor_stats h urls). split; reflexivity. }
  destruct Hok as [Hcap Hq]. split; [exact Hcap|]. split; [exact Hq|].
  intros url d r h'' m'' Hreq.
  rewrite (shutdown_makeRequest_channel _ _ _ _ _ _ _ Hreq).
  unfold Chan.trySend.
  destruct (Chan.recvq (ShutdownMonitor.updatedData m')) eqn:Hr.
  - cbn. repeat split; auto; discriminate.
  - rewrite Hcap, Hq. cbn. repeat split; auto; discriminate.
Qed.

Lemma unbuffered_notification_needs_waiting_display_witness :
  match ShutdownLoop.run
          (ShutdownMonitor.NewMonitor ∅ ["https://a.example"])
          [ShutdownLoop.Poll "https://a.example" 5 DoErr;
           ShutdownLoop.Display;
           ShutdownLoop.Poll "https://a.example" 6 (DoResp 200 (ReadAllOk 1))]
  with
  | Some (h', m') => Chan.qcount (ShutdownMonitor.updatedData m') = 0%nat
  | None => False
  end.
Proof.
  destruct (ShutdownLoop.run
              (ShutdownMonitor.NewMonitor ∅ ["https://a.example"])
              [ShutdownLoop.Poll "https://a.example" 5 DoErr;
               ShutdownLoop.Display;
               ShutdownLoop.Poll "https://a.example" 6
                 (DoResp 200 (ReadAllOk 1))])
    as [[h' m']|] eqn:Hrun.
  - destruct (unbuffered_notification_needs_waiting_display _ _ _ _ _ Hrun)
      as (_ & Hq & _).
    exact Hq.
  - vm_compute in Hrun. discriminate.
Defined.

End ShutdownFacts.

(** ** What the table shows *)

Section TableFacts.
Import Stats HTTP Polls Display.

Lemma append_not_dash (x suffix : string) :
  suffix <> EmptyString -> suffix <> "-" -> x +:+ suffix <> "-".
Proof.
  intros Hne Hnd. destruct x as [|a x]; cbn; [exact Hnd|].
  intros H. injection H as _ H. destruct x; cbn in H; [auto|discriminate].
Qed.

(** X11: the placeholder "-" is what [formatDuration] returns for 0 and for
    the largest int64 and for no other duration, and what [formatSize]
    returns for 0 and for -1 and for no other size, whatever the
    floating-point renderings are. *)
Theorem placeholder_exactly_for_zero_and_unset
        (Sprintf_2f : Z -> string) (Sprintf_1f : Z -> Z -> string)
        (d size : Z) :
  (formatDuration Sprintf_2f d = "-" <-> d = 0 \/ d = Int64.MaxInt64) /\
  (formatSize Sprintf_1f size = "-" <-> size = 0 \/ size = -1).
Proof.
  unfold formatDuration, formatSize.
  change (Z.shiftr (Int64.not_u64 0) 1) with Int64.MaxInt64.
  change (Z.shiftr (Int64.not_i64 0) 1) with (-1).
  split.
  - destruct (Z.eqb_spec d 0) as [->|H0]; [cbn; tauto|].
    destruct (Z.eqb_spec d Int64.MaxInt64) as [->|Hmax]; [cbn; tauto|].
    cbn [orb]. split; [|tauto]. intros H. exfalso.
    destruct (d >=? Time.Second);
      (eapply append_not_dash; [| |exact H]; discriminate).
  - destruct (Z.eqb_spec size 0) as [->|H0]; [cbn; tauto|].
    destruct (Z.eqb_spec size (-1)) as [->|Hm]; [cbn; tauto|].
    cbn [orb]. split; [|tauto]. intros H. exfalso.
    destruct (size >=? 1024 * 1024); [|destruct (size >=? 1024)];
      (eapply append_not_dash; [| |exact H]; discriminate).
Qed.

(** X12: a duration above 0 and below one second is shown as its whole
    number of milliseconds, rounded down, followed by "ms"; so every
    duration above 0 and below one millisecond is shown as "0ms". *)
Theorem milliseconds_are_rounded_down (Sprintf_2f : Z -> string) (d : Z) :
  0 < d < Time.Second ->
  formatDuration Sprintf_2f d = Sprintf_d (d / 1000000) +:+ "ms" /\
  (d < Time.Millisecond -> formatDuration Sprintf_2f d = "0ms").
Proof.
  unfold Time.Second, Time.Millisecond, Time.Microsecond, Time.Nanosecond.
  intros Hd. unfold formatDuration.
  change (Z.shiftr (Int64.not_u64 0) 1) with Int64.MaxInt64.
  destruct (Z.eqb_spec d 0); [lia|].
  destruct (Z.eqb_spec d Int64.MaxInt64);
    [unfold Int64.MaxInt64 in *; lia|].
  cbn [orb].
  destruct (Z.geb_spec d Time.Second) as [Hge|_];
    [unfold Time.Second, Time.Millisecond, Time.Microsecond,
       Time.Nanosecond in Hge; lia|].
  unfold Time.Milliseconds. rewrite div_pos by lia.
  rewrite Z.quot_div_nonneg by lia.
  split; [reflexivity|].
  intros Hms. rewrite Z.div_small by lia. reflexivity.
Qed.

Lemma milliseconds_are_rounded_down_witness :
  formatDuration (fun _ => "?") 1999999 = "1ms" /\
  formatDuration (fun _ => "?") 999999 = "0ms".
Proof.
  destruct (milliseconds_are_rounded_down (fun _ => "?") 1999999) as [H1 _];
    [vm_compute; split; reflexivity|].
  destruct (milliseconds_are_rounded_down (fun _ => "?") 999999) as [_ H2];
    [vm_compute; split; reflexivity|].
  split; [rewrite H1; vm_compute; reflexivity|].
  apply H2. vm_compute. reflexivity.
Defined.

Lemma length_append (a b : string) :
  String.length (a +:+ b) = (String.length a + String.length b)%nat.
Proof. induction a as [|c a IH]; simpl; [reflexivity|now f_equal]. Qed.

Lemma length_substring_0 (n : nat) : forall s : string,
  (n <= String.length s)%nat -> String.length (String.substring 0 n s) = n.
Proof.
  induction n as [|n IH]; intros [|c s] Hn; cbn in *; try lia; try reflexivity.
  rewrite IH by lia. reflexivity.
Qed.

(** X13: the url cell of a table row is the url itself when it has at most
    28 bytes; a longer url is cut to its first 25 bytes followed by three
    dots; either way the cell has at most 28 bytes. *)
Theorem url_cell_at_most_28_bytes
        (Sprintf_2f : Z -> string) (Sprintf_1f : Z -> Z -> string)
        (url : string) (snapshot : URLStats) :
  exists cell,
    tableRow Sprintf_2f Sprintf_1f url snapshot !! 0%nat = Some cell /\
    (String.length cell <= 28)%nat /\
    ((String.length url <= 28)%nat -> cell = url) /\
    ((28 < String.length url)%nat ->
     String.length cell = 28%nat /\
     (forall i, (i < 25)%nat -> String.get i cell = String.get i url) /\
     String.substring 25 3 cell = "...").
Proof.
  unfold tableRow. cbn [lookup list_lookup].
  eexists. split; [reflexivity|].
  destruct (Nat.ltb_spec 28 (String.length url)) as [Hlong|Hshort].
  - assert (Hlen : String.length (String.substring 0 25 url +:+ "...")
                   = 28%nat).
    { rewrite length_append, length_substring_0 by lia. reflexivity. }
    split; [lia|]. split; [lia|]. intros _. split; [exact Hlen|]. split.
    + intros i Hi.
      rewrite <- String.append_correct1
        by (rewrite length_substring_0 by lia; exact Hi).
      rewrite String.substring_correct1 by exact Hi.
      now rewrite Nat.add_0_r.
    + remember (String.substring 0 25 url) as p eqn:Hp.
      assert (Hpl : String.length p = 25%nat)
        by (subst p; apply length_substring_0; lia).
      clear Hp Hlen.
      do 25 (destruct p as [|? p]; [discriminate|]).
      destruct p; [reflexivity|discriminate].
  - split; [lia|]. split; [reflexivity|]. lia.
Qed.

Lemma url_cell_at_most_28_bytes_witness :
  tableRow (fun _ => "?") (fun _ _ => "?")
    "https://www.example.com/a/rather/long/path" (NewURLStats "t") !! 0%nat
  = Some "https://www.example.com/a..." /\
  tableRow (fun _ => "?") (fun _ _ => "?") "https://example.com"
    (NewURLStats "t") !! 0%nat = Some "https://example.com".
Proof.
  destruct (url_cell_at_most_28_bytes (fun _ => "?") (fun _ _ => "?")
              "https://example.com" (NewURLStats "t"))
    as (c2 & Hc2 & _ & Hshort & _).
  split.
  - reflexivity.
  - rewrite Hc2. f_equal. apply Hshort. vm_compute. lia.
Defined.

Lemma mapM_total {A B : Type} (f : A -> option B) (g : A -> B) (l : list A) :
  (forall x, In x l -> f x = Some (g x)) -> mapM f l = Some (List.map g l).
Proof.
  induction l as [|x l IH]; intros H; [reflexivity|].
  cbn. rewrite (H x) by (now left). cbn.
  rewrite IH by (intros y Hy; apply H; now right). reflexivity.
Qed.

(** X14: after the constructor and any interleaving of polls of the listed
    urls and redraws, rendering the table does not panic and gives one row
    for each entry of the url list, in the order of the list, each row
    computed from the state its url's own polls produce (a url listed twice
    gets two equal rows). Before any poll a row shows the url cell, six
    placeholders and 0/0. *)
Theorem table_has_a_row_for_each_url
        (Sprintf_2f : Z -> string) (Sprintf_1f : Z -> Z -> string)
        (h : gmap addr URLStats) (urls : list string)
        (es : list Monitor.Event) :
  polls_within urls es ->
  exists h' m',
    Monitor.run (Monitor.NewMonitor h urls) es = Some (h', m') /\
    renderTable Sprintf_2f Sprintf_1f h' m'
      = Some (List.map
                (fun url =>
                   tableRow Sprintf_2f Sprintf_1f url
                     (updates (NewURLStats url) (samples_for url es)))
                urls) /\
    (es = [] ->
     forall (i : nat) (url : string), urls !! i = Some url ->
       exists cell,
         (renderTable Sprintf_2f Sprintf_1f h' m' ≫= (fun rows => rows !! i))
         = Some [cell; "-"; "-"; "-"; "-"; "-"; "-"; "0/0"]).
Proof.
  intros Hin.
  destruct (run_from_NewMonitor h urls es Hin)
    as ([h' m'] & Hrun & Hu & Hdom & [Hcontent _]).
  cbn [fst snd] in *.
  assert (Hrows : renderTable Sprintf_2f Sprintf_1f h' m'
                  = Some (List.map
                            (fun url =>
                               tableRow Sprintf_2f Sprintf_1f url
                                 (updates (NewURLStats url)
                                    (samples_for url es))) urls)).
  { unfold renderTable. rewrite Hu. apply mapM_total.
    intros url Hurl. unfold Monitor.stat_of.
    destruct (proj2 (Hdom url) Hurl) as [p Hp]. rewrite Hp.
    rewrite (Hcontent url p Hp). unfold after_polls.
    now destruct (updates (NewURLStats url) (samples_for url es)). }
  exists h', m'. split; [exact Hrun|]. split; [exact Hrows|].
  intros -> i url Hi. rewrite Hrows. cbn [mbind option_bind].
  rewrite list_lookup_fmap, Hi. cbn. eexists. reflexivity.
Qed.

Lemma table_has_a_row_for_each_url_witness :
  exists h' m',
    Monitor.run (Monitor.NewMonitor ∅ ["https://a.example"; "https://b.example"])
      [Monitor.Poll "https://b.example"
         (Monitor.Sent 2500000 (DoResp 200 (ReadAllOk 10)))]
    = Some (h', m') /\
    (fun rows => List.map (fun row : list string => row !! 1%nat) rows)
      <$> renderTable (fun _ => "?") (fun _ _ => "?") h' m'
    = Some [Some "-"; Some "2ms"].
Proof.
  destruct (table_has_a_row_for_each_url (fun _ => "?") (fun _ _ => "?")
              ∅ ["https://a.example"; "https://b.example"]
              [Monitor.Poll "https://b.example"
                 (Monitor.Sent 2500000 (DoResp 200 (ReadAllOk 10)))])
    as (h' & m' & Hrun & Hrows & _).
  - unfold polls_within. repeat (constructor; [cbn; auto|]). constructor.
  - exists h', m'. split; [exact Hrun|]. rewrite Hrows.
    vm_compute. reflexivity.
Defined.

End TableFacts.

(** ** Validated arguments *)

Section ValidatedArguments.
Import Strings Main.

Lemma spaces_nonempty : List.Forall (fun p : list N => p <> []) spaces.
Proof. unfold spaces. repeat constructor; discriminate. Qed.

Lemma space_width_zero (rev : bool) (bs : list N) :
  space_width rev bs = 0%nat <->
  forall p, In p spaces ->
    starts_with bs (if rev then List.rev p else p) = false.
Proof.
  unfold space_width.
  destruct (List.find _ spaces) as [p|] eqn:Hfind; split.
  - intros Hlen. apply List.find_some in Hfind. destruct Hfind as [Hin _].
    pose proof (proj1 (List.Forall_forall _ _) spaces_nonempty p Hin).
    destruct p; [congruence|discriminate].
  - intros Hall. apply List.find_some in Hfind. destruct Hfind as [Hin Hp].
    rewrite (Hall p Hin) in Hp. discriminate.
  - intros _ p Hin. exact (List.find_none _ _ Hfind p Hin).
  - reflexivity.
Qed.

Lemma space_width_nil (rev : bool) : space_width rev [] = 0%nat.
Proof. destruct rev; reflexivity. Qed.

Lemma trim_front_trimmed (rev : bool) (fuel : nat) : forall bs : list N,
  (length bs <= fuel)%nat -> space_width rev (trim_front rev fuel bs) = 0%nat.
Proof.
  induction fuel as [|fuel IH]; intros bs Hlen.
  - destruct bs; [apply space_width_nil|cbn in Hlen; lia].
  - cbn [trim_front]. destruct (space_width rev bs) as [|w] eqn:Hw;
      [exact Hw|].
    apply IH. destruct bs as [|b bs]; [now rewrite space_width_nil in Hw|].
    rewrite length_drop. cbn [length] in *. lia.
Qed.

Lemma trim_front_suffix (rev : bool) (fuel : nat) : forall bs : list N,
  exists k, trim_front rev fuel bs = drop k bs.
Proof.
  induction fuel as [|fuel IH]; intros bs; [now exists 0%nat|].
  cbn [trim_front]. destruct (space_width rev bs) as [|w]; [now exists 0%nat|].
  destruct (IH (drop (S w) bs)) as [k Hk].
  exists (S w + k)%nat. rewrite Hk. apply drop_drop.
Qed.

Lemma trim_front_fixed (rev : bool) (fuel : nat) (bs : list N) :
  space_width rev bs = 0%nat -> trim_front rev fuel bs = bs.
Proof. intros H. destruct fuel; cbn [trim_front]; [|rewrite H]; reflexivity. Qed.

Lemma starts_with_take (p : list N) : forall (j : nat) (bs : list N),
  starts_with (take j bs) p = true -> starts_with bs p = true.
Proof.
  induction p as [|x p IH]; intros j bs; [now destruct bs|].
  destruct j as [|j], bs as [|b bs]; cbn; try discriminate.
  intros H. apply andb_true_iff in H. destruct H as [Hx Hp].
  rewrite Hx. cbn. now apply (IH j).
Qed.

Lemma space_width_take (j : nat) (bs : list N) :
  space_width false bs = 0%nat -> space_width false (take j bs) = 0%nat.
Proof.
  rewrite !space_width_zero. intros H p Hin. specialize (H p Hin).
  destruct (starts_with (take j bs) p) eqn:Hs; [|reflexivity].
  apply starts_with_take in Hs. congruence.
Qed.

Lemma codes_roundtrip (bs : list N) :
  Forall (fun b => (b < 256)%N) bs ->
  List.map code (List.map ascii_of_N bs) = bs.
Proof.
  induction 1 as [|b bs Hb _ IH]; [reflexivity|].
  cbn [List.map]. unfold code at 1. rewrite N_ascii_embedding by exact Hb.
  now rewrite IH.
Qed.

(** Trimming what is already trimmed changes nothing. *)
Lemma TrimSpace_idempotent (s : string) : TrimSpace (TrimSpace s) = TrimSpace s.
Proof.
  unfold TrimSpace at 2 3.
  set (bs := List.map code (list_ascii_of_string s)).
  set (L := trim_front false (length bs) bs).
  set (T := trim_front true (length L) (List.rev L)).
  assert (HL : space_width false L = 0%nat)
    by (apply trim_front_trimmed; lia).
  assert (HT : space_width true T = 0%nat)
    by (apply trim_front_trimmed; rewrite List.length_rev; lia).
  assert (Hbs : Forall (fun b => (b < 256)%N) bs).
  { apply Forall_forall. intros b Hb. unfold bs in Hb.
    apply list_elem_of_In, List.in_map_iff in Hb. destruct Hb as (c & <- & _).
    apply N_ascii_bounded. }
  destruct (trim_front_suffix false (length bs) bs) as [k Hk]. fold L in Hk.
  destruct (trim_front_suffix true (length L) (List.rev L)) as [j Hj].
  fold T in Hj.
  assert (HR : List.rev T = take (length L - j) L).
  { rewrite Hj. change (drop j (List.rev L)) with (skipn j (List.rev L)).
    rewrite List.skipn_rev. apply List.rev_involutive. }
  assert (HR256 : Forall (fun b => (b < 256)%N) (List.rev T)).
  { rewrite HR. apply Forall_take. rewrite Hk. now apply Forall_drop. }
  assert (HRw : space_width false (List.rev T) = 0%nat).
  { rewrite HR. now apply space_width_take. }
  unfold TrimSpace.
  rewrite list_ascii_of_string_of_list_ascii, codes_roundtrip by exact HR256.
  rewrite (trim_front_fixed false _ _ HRw).
  rewrite List.rev_involutive.
  rewrite (trim_front_fixed true _ _ HT). reflexivity.
Qed.

Lemma acceptable_not_rejected (n : nat) (arg : string) (e : error) :
  acceptable arg -> ~ rejected_as n arg e.
Proof.
  intros (Hne & u & Hparse & Hscheme & Hhost) Hrej.
  destruct Hrej as [[Hempty _]|[_ [(err & Herr & _)|[H|H]]]].
  - contradiction.
  - congruence.
  - destruct H as (u' & Hu' & H1 & H2 & _).
    assert (u' = u) as -> by congruence. tauto.
  - destruct H as (u' & Hu' & _ & Hh & _).
    assert (u' = u) as -> by congruence. contradiction.
Qed.

(** X15: what [validateURLs] returns is a fixed point of it: the list has
    as many entries as the arguments, each entry has no white space left
    around it, and validating the returned list again returns it
    unchanged. *)
Theorem validated_list_validates_to_itself (args urls : list string) :
  validateURLs args = Ok urls ->
  length urls = length args /\
  Forall (fun u => TrimSpace u = u) urls /\
  validateURLs urls = Ok urls.
Proof.
  intros Hok. destruct args as [|arg args]; [discriminate|].
  unfold validateURLs in Hok.
  pose proof (validateURLs_range_spec (arg :: args) 0 []) as H.
  rewrite Hok in H. destruct H as [Hall ->]. cbn [app].
  assert (Htrim : Forall (fun u => TrimSpace u = u)
                    (List.map TrimSpace (arg :: args))).
  { apply Forall_forall. intros u Hu.
    apply list_elem_of_In, List.in_map_iff in Hu. destruct Hu as (a & <- & _).
    apply TrimSpace_idempotent. }
  split; [apply List.length_map|]. split; [exact Htrim|].
  assert (Hacc : Forall acceptable (List.map TrimSpace (arg :: args))).
  { apply Forall_forall. intros u Hu.
    apply list_elem_of_In, List.in_map_iff in Hu.
    destruct Hu as (a & <- & Ha).
    pose proof (proj1 (List.Forall_forall _ _) Hall a Ha) as Hacc.
    unfold acceptable in *. now rewrite TrimSpace_idempotent. }
  assert (Hsame : List.map TrimSpace (List.map TrimSpace (arg :: args))
                  = List.map TrimSpace (arg :: args)).
  { rewrite List.map_map. apply List.map_ext. intros a.
    apply TrimSpace_idempotent. }
  cbn [List.map] in *. unfold validateURLs.
  pose proof (validateURLs_range_spec
                (TrimSpace arg :: List.map TrimSpace args) 0 []) as H.
  destruct (validateURLs_range 0 (TrimSpace arg :: List.map TrimSpace args) [])
    as [urls'|e].
  - destruct H as [_ ->]. cbn [app]. f_equal. exact Hsame.
  - exfalso. destruct H as (pre & a & post & Heq & _ & Hrej).
    eapply acceptable_not_rejected; [|exact Hrej].
    apply (proj1 (List.Forall_forall _ _) Hacc).
    cbn [List.map]. rewrite Heq. apply List.in_or_app. right. now left.
Qed.

Lemma validated_list_validates_to_itself_witness :
  validateURLs ["https://example.com"; "http://b.example/x"]
  = Ok ["https://example.com"; "http://b.example/x"] /\
  length ["https://example.com"; "http://b.example/x"] = 2%nat.
Proof.
  destruct (validated_list_validates_to_itself
              ["  https://example.com  "; "http://b.example/x "]
              ["https://example.com"; "http://b.example/x"])
    as (Hlen & _ & Hagain).
  - vm_compute. reflexivity.
  - split; [exact Hagain|exact Hlen].
Defined.

End ValidatedArguments.

(** ** From the command line to the first table *)

Section FirstTable.
Import Stats Strings Main Polls Display.

(** X16: when [validateURLs] accepts the arguments, the monitor built from
    what it returns renders, before any poll, a table with one row for each
    argument, in the order of the arguments; the row of an argument is that
    of its trimmed text with no samples yet. *)
Theorem accepted_arguments_fill_the_first_table
        (Sprintf_2f : Z -> string) (Sprintf_1f : Z -> Z -> string)
        (h : gmap addr URLStats) (args urls : list string) :
  validateURLs args = Ok urls ->
  let hm := Monitor.NewMonitor h urls in
  exists rows,
    renderTable Sprintf_2f Sprintf_1f hm.1 hm.2 = Some rows /\
    length rows = length args /\
    forall (i : nat) (arg : string), args !! i = Some arg ->
      rows !! i
      = Some (tableRow Sprintf_2f Sprintf_1f (TrimSpace arg)
                (NewURLStats (TrimSpace arg))).
Proof.
  intros Hok hm.
  assert (Hurls : urls = List.map TrimSpace args).
  { destruct args as [|arg args]; [discriminate|].
    unfold validateURLs in Hok.
    pose proof (validateURLs_range_spec (arg :: args) 0 []) as H.
    rewrite Hok in H. now destruct H as [_ ->]. }
  destruct (NewMonitor_tracks h urls) as (Hu & [Hcontent _] & Hdom & _).
  fold hm in Hu, Hcontent, Hdom.
  exists (List.map (fun url => tableRow Sprintf_2f Sprintf_1f url
                                 (NewURLStats url)) urls).
  split; [|split].
  - unfold renderTable. rewrite Hu. apply mapM_total.
    intros url Hurl. unfold Monitor.stat_of.
    destruct (proj2 (Hdom url) Hurl) as [p Hp]. rewrite Hp.
    now rewrite (Hcontent url p Hp).
  - rewrite Hurls. now rewrite !List.length_map.
  - intros i arg Hi. rewrite Hurls, List.map_map.
    now rewrite list_lookup_fmap, Hi.
Qed.

Lemma accepted_arguments_fill_the_first_table_witness :
  let hm := Monitor.NewMonitor ∅ ["https://example.com"] in
  exists rows,
    renderTable (fun _ => "?") (fun _ _ => "?") hm.1 hm.2 = Some rows /\
    rows !! 0%nat
    = Some ["https://example.com"; "-"; "-"; "-"; "-"; "-"; "-"; "0/0"].
Proof.
  destruct (accepted_arguments_fill_the_first_table
              (fun _ => "?") (fun _ _ => "?") ∅
              ["  https://example.com  "] ["https://example.com"])
    as (rows & Hrows & _ & Hrow).
  - vm_compute. reflexivity.
  - cbv zeta. exists rows. split; [exact Hrows|].
    rewrite (Hrow 0%nat "  https://example.com  ") by reflexivity.
    vm_compute. reflexivity.
Defined.

End FirstTable.
